(** * Monthly account balance generation DAG

    A shallow embedding of
    [dags/account_monthly_balance_generation/account_monthly_balance_generation.py]:
    the parameter mapping [PARAMS_DEFINITION], the two SQL operators, the
    two TaskFlow tasks [generate_presigned_url] and [notify_slack], the
    dependency edges built with [>>], and the part of the orchestration
    engine the workflow relies on (default trigger rule, retries, the
    rendering of template fields before a try, XCom).

    Strings are byte strings (UTF-8).  The external services (warehouse,
    S3 signer, Slack webhook) and the template engine are oracles collected
    in [Services]; every call made to a service is appended to the [trace]
    of the [World]. *)

From Stdlib Require Import ZArith Ascii String.
From stdpp Require Import base strings gmap list functions.

Local Open Scope Z_scope.

(** ** Strings and paths *)

Definition nl : string := String "010"%char EmptyString.

(** The three UTF-8 bytes of U+2705 (white heavy check mark). *)
Definition check_mark : string :=
  String "226"%char (String "156"%char (String "133"%char EmptyString)).

Definition endswith (s suffix : string) : bool :=
  let n := String.length s in
  let k := String.length suffix in
  if decide (k ≤ n)%nat
  then bool_decide (String.substring (n - k) k s = suffix)
  else false.

(** [os.path.join a b] on a POSIX host. *)
Definition os_path_join (a b : string) : string :=
  if String.prefix "/" b then b
  else if bool_decide (a = EmptyString) || endswith a "/" then a +:+ b
  else a +:+ "/" +:+ b.

(** ** The run configuration *)

Abbreviation Params := (gmap string string).

Section Module_level.

(** [os.path.dirname(__file__)]: the directory the DAG file is deployed in. *)
Variable module_dir : string.

Definition PARAMS_DEFINITION : Params :=
  list_to_map
    [ ("snowflake_conn_id", "snowflake_conn_id");
      ("aws_conn_id", "aws_conn_id");
      ("queries_base_path", os_path_join module_dir "queries");
      ("db", "NU_CO_DEV_BUSINESS");
      ("schema_origin", "POSTGRES_RDS_PUBLIC");
      ("schema_destination", "FINANCE_SILVER_TABLES");
      ("stage", "@NU_CO_DEV_BUSINESS.POSTGRES_RDS_PUBLIC.S3_STAGE_STUDY_CASE");
      ("path", "output_files");
      ("bucket_s3", "terraform-nu-db-pg-48baa6b7");
      ("filename", "account_monthly_balance.csv");
      ("files_dir", os_path_join "/tmp" "balance") ].

End Module_level.

(** ** Connections, clients and the calls made to external services *)

Record Connection := {
  login : option string;
  password : option string;
  extra_dejson : gmap string string
}.

Record Session := {
  aws_access_key_id : option string;
  aws_secret_access_key : option string;
  session_region : string
}.

Record Client := {
  service_name : string;
  client_session : Session;
  client_region : string
}.

(** [session.client(service, region_name=...)]: an explicit [region_name]
    takes precedence over the region of the session. *)
Definition Session_client (s : Session) (service : string)
    (region_name : option string) : Client :=
  {| service_name := service;
     client_session := s;
     client_region := default (session_region s) region_name |}.

Record PresignRequest := {
  ClientMethod : string;
  Bucket : string;
  Key : string;
  ExpiresIn : Z
}.

Record SQLExecuteQueryOperator := {
  sql_task_id : string;
  sql : string;
  conn_id : string;
  params : Params
}.

Record SlackWebhookOperator := {
  slack_task_id : string;
  slack_webhook_conn_id : string;
  message : string;
  username : string
}.

(** A call to an external service and its answer.  [CallSQL op ok]: the
    statement of the operator [op], named as the DAG defines it, was sent
    to the warehouse once its fields were rendered. *)
Inductive Call :=
  | CallSQL (op : SQLExecuteQueryOperator) (ok : bool)
  | CallPresign (c : Client) (r : PresignRequest) (url : option string)
  | CallSlack (op : SlackWebhookOperator) (ok : bool).

(** [module_params] is the module-level dictionary object
    [PARAMS_DEFINITION] as it stands at a given moment; [connections] is the
    connection registry of the engine. *)
Record World := {
  module_params : Params;
  connections : gmap string Connection;
  xcom : gmap string string;
  trace : list Call
}.

Inductive Exception :=
  | KeyError (k : string)
  | AirflowNotFoundException (conn : string)
  | DatabaseError
  | ClientError
  | AirflowException
  | TemplateError (template : string).

Inductive Result (A : Type) :=
  | Return (a : A)
  | Raise (e : Exception).
Arguments Return {A} a.
Arguments Raise {A} e.

(** The external collaborators.  Each answers from the calls seen so far.
    The warehouse is given the operator with its fields rendered.
    [jinja_string] is the template engine of the DAG on a template given as
    a string, [jinja_file] on a template named by a file of the template
    search path; both take the [params] of the task, and raise when the
    template does not render or the file is not found. *)
Record Services := {
  warehouse : list Call → Connection → SQLExecuteQueryOperator → bool;
  s3_sign : list Call → Client → PresignRequest → option string;
  webhook : list Call → Connection → SlackWebhookOperator → bool;
  jinja_string : list Call → Params → string → Result string;
  jinja_file : list Call → Params → string → Result string
}.

(** Rendering a string field after the calls [tr]: a value that ends in one
    of the operator's [template_ext] names a template file, any other value
    is itself the template. *)
Definition render_field (env : Services) (template_ext : list string)
    (tr : list Call) (ps : Params) (value : string) : Result string :=
  if existsb (endswith value) template_ext
  then jinja_file env tr ps value
  else jinja_string env tr ps value.

(** [template_ext] of [SQLExecuteQueryOperator] *)
Definition sql_template_ext : list string := [".sql"; ".json"].

(** Task code runs in a state-and-exception monad over the world. *)
Definition M (A : Type) : Type := World → Result A * World.

Definition ret {A} (a : A) : M A := λ w, (Return a, w).
Definition raise {A} (e : Exception) : M A := λ w, (Raise e, w).
Definition bind {A B} (c : M A) (k : A → M B) : M B :=
  λ w, match c w with
       | (Return a, w') => k a w'
       | (Raise e, w') => (Raise e, w')
       end.

Notation "'let*' x := c 'in' k" := (bind c (λ x, k))
  (at level 10, x name, c at level 200, k at level 200).

Definition record_call (c : Call) (w : World) : World :=
  {| module_params := module_params w;
     connections := connections w;
     xcom := xcom w;
     trace := trace w ++ [c] |}.

Definition log (c : Call) : M unit := λ w, (Return tt, record_call c w).

Definition get_trace : M (list Call) := λ w, (Return (trace w), w).

(** [BaseHook.get_connection] *)
Definition get_connection (name : string) : M Connection :=
  λ w, match connections w !! name with
       | Some c => (Return c, w)
       | None => (Raise (AirflowNotFoundException name), w)
       end.

(** ** Tasks and the DAG *)

Inductive TaskId :=
  | T_create_table_snowflake
  | T_load_to_s3
  | T_generate_presigned_url
  | T_notify_slack.

Global Instance TaskId_eq_dec : EqDecision TaskId.
Proof. solve_decision. Defined.

Definition task_id (t : TaskId) : string :=
  match t with
  | T_create_table_snowflake => "create_table_snowflake"
  | T_load_to_s3 => "load_to_s3"
  | T_generate_presigned_url => "generate_presigned_url"
  | T_notify_slack => "notify_slack"
  end.

Definition all_tasks : list TaskId :=
  [T_create_table_snowflake; T_load_to_s3; T_generate_presigned_url; T_notify_slack].

(** What a task runs.  The argument of [NotifyTask] is the [XComArg] it
    was called with: the task whose return value it receives. *)
Inductive Operator :=
  | SQLTask (op : SQLExecuteQueryOperator)
  | PresignTask (bucket_name object_key : string) (expires_in_sec : Z)
  | NotifyTask (url : TaskId).

(** [retries] is the task's own keyword argument, when it gives one. *)
Record Task := {
  operator : Operator;
  retries : option nat
}.

Record DefaultArgs := {
  da_owner : option string;
  da_retries : option nat
}.

Record DAG := {
  template_searchpath : string;
  default_args : DefaultArgs;
  tasks : TaskId → Task;
  edges : list (TaskId * TaskId)
}.

(** [a.set_downstream(b)], which [a >> b] calls: the relatives of a task
    are sets, so an edge that is already there is not added again. *)
Definition set_downstream (a b : TaskId) (es : list (TaskId * TaskId)) :
    list (TaskId * TaskId) :=
  if decide ((a, b) ∈ es) then es else es ++ [(a, b)].

Definition upstream (d : DAG) (t : TaskId) : list TaskId :=
  omap (λ e, if decide (e.2 = t) then Some e.1 else None) (edges d).

Definition downstream (d : DAG) (t : TaskId) : list TaskId :=
  omap (λ e, if decide (e.1 = t) then Some e.2 else None) (edges d).

(** The retries a task instance gets: its own, else the DAG's
    [default_args], else the engine's default of none. *)
Definition task_retries (d : DAG) (t : TaskId) : nat :=
  default (default 0%nat (da_retries (default_args d))) (retries (tasks d t)).

(** ** Task instances *)

Inductive TaskState := Scheduled | Running | Success | Failed | UpstreamFailed.

Global Instance TaskState_eq_dec : EqDecision TaskState.
Proof. solve_decision. Defined.

Definition started (s : TaskState) : bool :=
  match s with
  | Running | Success | Failed => true
  | Scheduled | UpstreamFailed => false
  end.

Definition finished (s : TaskState) : bool :=
  match s with
  | Success | Failed | UpstreamFailed => true
  | Scheduled | Running => false
  end.

Definition executed (s : TaskState) : bool :=
  match s with
  | Success | Failed => true
  | _ => false
  end.

Definition is_failure (s : TaskState) : bool :=
  match s with
  | Failed | UpstreamFailed => true
  | _ => false
  end.

(** [order] lists the task instances in the order they were started. *)
Record DagRun := {
  ti : TaskId → TaskState;
  order : list TaskId;
  world : World
}.

Definition new_run (w : World) : DagRun :=
  {| ti := λ _, Scheduled; order := []; world := w |}.

Inductive Action :=
  | Start (t : TaskId)
  | Finish (t : TaskId)
  | MarkUpstreamFailed (t : TaskId).

Definition all_actions : list Action :=
  (Finish <$> all_tasks) ++ (Start <$> all_tasks) ++ (MarkUpstreamFailed <$> all_tasks).

Inductive DagRunState := RunRunning | RunSuccess | RunFailed.

Definition leaves (d : DAG) : list TaskId :=
  List.filter (λ t, bool_decide (downstream d t = [])) all_tasks.

(** The state of the run once its task instances are all finished:
    failed when a leaf failed or was not run, successful otherwise. *)
Definition dagrun_state (d : DAG) (r : DagRun) : DagRunState :=
  if forallb (λ t, finished (ti r t)) all_tasks then
    if forallb (λ t, bool_decide (ti r t = Success)) (leaves d)
    then RunSuccess else RunFailed
  else RunRunning.

(** Module-level code (the body of the [@dag] function) touches no
    service: it returns or raises. *)
Definition rbind {A B} (c : Result A) (k : A → Result B) : Result B :=
  match c with
  | Return a => k a
  | Raise e => Raise e
  end.

Notation "'let?' x := c 'in' k" := (rbind c (λ x, k))
  (at level 10, x name, c at level 200, k at level 200).

Definition getitem (d : Params) (k : string) : Result string :=
  match d !! k with
  | Some v => Return v
  | None => Raise (KeyError k)
  end.

Section Tasks.

Variable env : Services.

(** [BaseOperator.render_template] on a string field, when the task
    instance is about to run. *)
Definition render_template (template_ext : list string) (ps : Params)
    (value : string) : M string :=
  λ w, (render_field env template_ext (trace w) ps value, w).

(** [render_template_fields] of a [SQLExecuteQueryOperator]: its string
    fields [conn_id] and [sql] (the other template fields are unset). *)
Definition render_sql_fields (op : SQLExecuteQueryOperator) :
    M SQLExecuteQueryOperator :=
  let* conn' := render_template sql_template_ext (params op) (conn_id op) in
  let* sql' := render_template sql_template_ext (params op) (sql op) in
  ret {| sql_task_id := sql_task_id op;
         sql := sql';
         conn_id := conn';
         params := params op |}.

(** [SQLExecuteQueryOperator.execute], on the operator [op] whose fields
    were rendered to [rendered]. *)
Definition SQLExecuteQueryOperator_execute (op rendered : SQLExecuteQueryOperator) :
    M unit :=
  let* conn := get_connection (conn_id rendered) in
  let* tr := get_trace in
  let ok := warehouse env tr conn rendered in
  let* _ := log (CallSQL op ok) in
  if ok then ret tt else raise DatabaseError.

(** [s3.generate_presigned_url] *)
Definition Client_generate_presigned_url (s3 : Client) (r : PresignRequest) : M string :=
  let* tr := get_trace in
  let res := s3_sign env tr s3 r in
  let* _ := log (CallPresign s3 r res) in
  match res with
  | Some url => ret url
  | None => raise ClientError
  end.

(** [PARAMS_DEFINITION[k]], read when the task runs. *)
Definition PARAMS_getitem (k : string) : M string :=
  λ w, (getitem (module_params w) k, w).

Definition generate_presigned_url (bucket_name object_key : string)
    (expires_in_sec : Z) : M string :=
  let* name := PARAMS_getitem "aws_conn_id" in
  let* conn := get_connection name in
  let extras := extra_dejson conn in
  let session :=
    {| aws_access_key_id := login conn;
       aws_secret_access_key := password conn;
       session_region := default "us-east-1" (extras !! "region_name") |} in
  let s3 := Session_client session "s3" (Some "us-east-1") in
  let* url := Client_generate_presigned_url s3
                {| ClientMethod := "get_object";
                   Bucket := bucket_name; Key := object_key;
                   ExpiresIn := expires_in_sec |} in
  ret url.

(** [SlackWebhookOperator.execute] *)
Definition SlackWebhookOperator_execute (op : SlackWebhookOperator) : M unit :=
  let* conn := get_connection (slack_webhook_conn_id op) in
  let* tr := get_trace in
  let ok := webhook env tr conn op in
  let* _ := log (CallSlack op ok) in
  if ok then ret tt else raise AirflowException.

Definition slack_message (url : string) : string :=
  check_mark +:+ " CSV file for monthly account balance is available at:"
    +:+ nl +:+ url.

Definition notify_slack_operator (url : string) : SlackWebhookOperator :=
  {| slack_task_id := "send_slack_message";
     slack_webhook_conn_id := "slack_webhook_conn";
     message := slack_message url;
     username := "airflow-bot" |}.

Definition notify_slack (url : string) : M unit :=
  SlackWebhookOperator_execute (notify_slack_operator url).

(** *** The [@dag] function

    [P] is the dictionary [PARAMS_DEFINITION] as the module finds it when
    the DAG is defined. *)

Definition account_monthly_balance_generation (P : Params) : Result DAG :=
  let? searchpath := getitem P "queries_base_path" in
  let? conn1 := getitem P "snowflake_conn_id" in
  let create_table_snowflake :=
    {| sql_task_id := "create_table_snowflake";
       sql := "create_table_snowflake.sql";
       conn_id := conn1;
       params := P |} in
  let? conn2 := getitem P "snowflake_conn_id" in
  let load_to_s3 :=
    {| sql_task_id := "load_to_s3";
       sql := "load_to_s3.sql";
       conn_id := conn2;
       params := P |} in
  (* create_table_snowflake >> load_to_s3 *)
  let es := set_downstream T_create_table_snowflake T_load_to_s3 [] in
  let? bucket := getitem P "bucket_s3" in
  let? path := getitem P "path" in
  let? filename := getitem P "filename" in
  let presigned_url := PresignTask bucket (path +:+ "/" +:+ filename) 604800 in
  (* load_to_s3 >> presigned_url *)
  let es := set_downstream T_load_to_s3 T_generate_presigned_url es in
  (* notify_slack(presigned_url): the XComArg argument makes its task
     an upstream of the new task *)
  let notify := NotifyTask T_generate_presigned_url in
  let es := set_downstream T_generate_presigned_url T_notify_slack es in
  (* ... >> notify_slack(presigned_url) *)
  let es := set_downstream T_generate_presigned_url T_notify_slack es in
  Return
    {| template_searchpath := searchpath;
       default_args := {| da_owner := Some "AFMP"; da_retries := Some 3%nat |};
       tasks := λ t,
         {| operator :=
              match t with
              | T_create_table_snowflake => SQLTask create_table_snowflake
              | T_load_to_s3 => SQLTask load_to_s3
              | T_generate_presigned_url => presigned_url
              | T_notify_slack => notify
              end;
            retries := None |};
       edges := es |}.

(** *** Running a task instance *)

Definition xcom_push (t : TaskId) (v : string) : M unit :=
  λ w, (Return tt, {| module_params := module_params w;
                      connections := connections w;
                      xcom := <[task_id t := v]> (xcom w);
                      trace := trace w |}).

(** [XComArg.resolve] for the return value of a task: the value, or
    [None] when the task has pushed none. *)
Definition xcom_pull (t : TaskId) : M (option string) :=
  λ w, (Return (xcom w !! task_id t), w).

(** [str(v)] for an argument that is a string or [None]. *)
Definition str_of (v : option string) : string := default "None" v.

(** One try of a task instance: the template fields are rendered (the
    fields of a SQL operator with its [params]; the string arguments of a
    TaskFlow task, which has no [params]; an [XComArg] argument is resolved
    and not rendered), then the operator is executed. *)
Definition execute (t : TaskId) (op : Operator) : M unit :=
  match op with
  | SQLTask o =>
      let* rendered := render_sql_fields o in
      SQLExecuteQueryOperator_execute o rendered
  | PresignTask b k e =>
      let* b' := render_template [] ∅ b in
      let* k' := render_template [] ∅ k in
      let* url := generate_presigned_url b' k' e in
      xcom_push t url
  | NotifyTask src =>
      let* v := xcom_pull src in
      notify_slack (str_of v)
  end.

(** One try and then up to [n] retries; [true] when a try succeeded. *)
Fixpoint run_with_retries (n : nat) (body : M unit) (w : World) : bool * World :=
  match body w with
  | (Return _, w') => (true, w')
  | (Raise _, w') =>
      match n with
      | O => (false, w')
      | S k => run_with_retries k body w'
      end
  end.

Definition run_task_instance (d : DAG) (t : TaskId) (w : World) : bool * World :=
  run_with_retries (task_retries d t) (execute t (operator (tasks d t))) w.

(** *** The scheduler

    Trigger rule [all_success], the default: a scheduled task starts once
    all its upstream tasks succeeded, and becomes [UpstreamFailed] without
    running once one of them failed or was itself not run.  The scheduler
    is free to start several tasks; the effects of a task instance are
    placed where it finishes. *)

Definition enabled (d : DAG) (r : DagRun) (a : Action) : bool :=
  match a with
  | Start t =>
      bool_decide (ti r t = Scheduled)
      && forallb (λ u, bool_decide (ti r u = Success)) (upstream d t)
  | Finish t => bool_decide (ti r t = Running)
  | MarkUpstreamFailed t =>
      bool_decide (ti r t = Scheduled)
      && existsb (λ u, is_failure (ti r u)) (upstream d t)
  end.

Definition perform (d : DAG) (r : DagRun) (a : Action) : DagRun :=
  match a with
  | Start t =>
      {| ti := <[t := Running]> (ti r); order := order r ++ [t];
         world := world r |}
  | Finish t =>
      let res := run_task_instance d t (world r) in
      {| ti := <[t := if res.1 then Success else Failed]> (ti r);
         order := order r;
         world := res.2 |}
  | MarkUpstreamFailed t =>
      {| ti := <[t := UpstreamFailed]> (ti r); order := order r;
         world := world r |}
  end.

Inductive step (d : DAG) : DagRun → DagRun → Prop :=
  | step_perform r a : enabled d r a = true → step d r (perform d r a).

Inductive reachable (d : DAG) (r0 : DagRun) : DagRun → Prop :=
  | reachable_refl : reachable d r0 r0
  | reachable_step r r' : reachable d r0 r → step d r r' → reachable d r0 r'.

(** A schedule is a list of actions, each enabled when its turn comes;
    [follow] performs it. *)
Fixpoint follow (d : DAG) (r : DagRun) (acts : list Action) : option DagRun :=
  match acts with
  | [] => Some r
  | a :: rest =>
      if enabled d r a then follow d (perform d r a) rest else None
  end.

(** The scheduler as a function: take the first enabled action until
    there is none. *)
Fixpoint schedule (fuel : nat) (d : DAG) (r : DagRun) : DagRun :=
  match fuel with
  | O => r
  | S n =>
      match List.find (enabled d r) all_actions with
      | Some a => schedule n d (perform d r a)
      | None => r
      end
  end.

Definition run (d : DAG) (w : World) : DagRun :=
  schedule 8 d (new_run w).

(** One run of the workflow as deployed: the module is imported, which
    defines the DAG from the dictionary, and the DAG is run. *)
Definition run_workflow (w : World) : Result DagRun :=
  let? d := account_monthly_balance_generation (module_params w) in
  Return (run d w).

End Tasks.

(** ** Vocabulary of the statements *)

(** The messages delivered to the chat channel, oldest first. *)
Definition posted (tr : list Call) : list SlackWebhookOperator :=
  omap (λ c, match c with CallSlack op true => Some op | _ => None end) tr.

(** [w'] comes after [w]: the dictionary and the registry are the same, and
    the calls [new] were added at the end of the trace. *)
Definition extends (w w' : World) (new : list Call) : Prop :=
  module_params w' = module_params w
  ∧ connections w' = connections w
  ∧ trace w' = trace w ++ new.

(** The calls a task may make, given what it runs. *)
Definition call_of (op : Operator) (c : Call) : Prop :=
  match op, c with
  | SQLTask o, CallSQL o' _ => o' = o
  | PresignTask b k e, CallPresign cl r _ =>
      ClientMethod r = "get_object"
      ∧ ExpiresIn r = e
      ∧ service_name cl = "s3"
      ∧ client_region cl = "us-east-1"
  | NotifyTask _, CallSlack o _ => ∃ url, o = notify_slack_operator url
  | _, _ => False
  end.

(** Strings without template markup or line ends: the template engine
    gives them back as they are. *)
Definition plain_char (c : ascii) : bool :=
  negb (bool_decide (c = "{"%char ∨ c = "010"%char ∨ c = "013"%char)).

Fixpoint plain (s : string) : bool :=
  match s with
  | EmptyString => true
  | String c rest => plain_char c && plain rest
  end.

Definition renders_plain (env : Services) : Prop :=
  ∀ tr ps s, plain s = true → jinja_string env tr ps s = Return s.

(** The request the link generator makes for an operator argument list:
    the arguments rendered, without [params], after the calls [tr]. *)
Definition rendered_request (env : Services) (tr : list Call)
    (b k : string) (e : Z) (r : PresignRequest) : Prop :=
  ∃ b' k',
    render_field env [] tr ∅ b = Return b'
    ∧ render_field env [] tr ∅ k = Return k'
    ∧ r = {| ClientMethod := "get_object"; Bucket := b'; Key := k';
             ExpiresIn := e |}.

(** The connection identifier and the statement of a SQL operator,
    rendered after [tr]. *)
Definition rendered_conn_id (env : Services) (tr : list Call)
    (o : SQLExecuteQueryOperator) : Result string :=
  render_field env sql_template_ext tr (params o) (conn_id o).

Definition rendered_sql (env : Services) (tr : list Call)
    (o : SQLExecuteQueryOperator) : Result string :=
  render_field env sql_template_ext tr (params o) (sql o).

(** The number of tries of a task instance with [n] retries. *)
Fixpoint tries_made (n : nat) (body : M unit) (w : World) : nat :=
  match body w with
  | (Return _, _) => 1%nat
  | (Raise _, w') =>
      match n with
      | O => 1%nat
      | S k => S (tries_made k body w')
      end
  end.

Definition attempts (env : Services) (d : DAG) (t : TaskId) (w : World) : nat :=
  tries_made (task_retries d t) (execute env t (operator (tasks d t))) w.

(** How many messages a task instance delivers. *)
Definition posts_of (op : Operator) (ok : bool) : nat :=
  match op with
  | NotifyTask _ => if ok then 1%nat else 0%nat
  | _ => 0%nat
  end.

Definition succeeded {A} (res : Result A) : bool :=
  match res with
  | Return _ => true
  | Raise _ => false
  end.

(** The place of a task in the chain. *)
Definition position (t : TaskId) : nat :=
  match t with
  | T_create_table_snowflake => 0%nat
  | T_load_to_s3 => 1%nat
  | T_generate_presigned_url => 2%nat
  | T_notify_slack => 3%nat
  end.

Definition before (u t : TaskId) : Prop := (position u < position t)%nat.

Ltac solve_before := unfold before; cbn; lia.

Ltac split5 := split; [|split; [|split; [|split]]].

(** Work left in a run: two steps for a scheduled task, one for a running
    one. *)
Definition weight (s : TaskState) : nat :=
  match s with
  | Scheduled => 2%nat
  | Running => 1%nat
  | _ => 0%nat
  end.

Definition tasks_sum (g : TaskId → nat) : nat :=
  foldr (λ t n, (g t + n)%nat) 0%nat all_tasks.

Definition remaining (r : DagRun) : nat :=
  tasks_sum (λ t, weight (ti r t)).

(** The session and the client [generate_presigned_url] builds from a
    connection. *)
Definition session_of (conn : Connection) : Session :=
  {| aws_access_key_id := login conn;
     aws_secret_access_key := password conn;
     session_region := default "us-east-1" (extra_dejson conn !! "region_name") |}.

Definition request_of (b k : string) (e : Z) : PresignRequest :=
  {| ClientMethod := "get_object"; Bucket := b; Key := k; ExpiresIn := e |}.

(** The task an action of the scheduler is about. *)
Definition target (a : Action) : TaskId :=
  match a with
  | Start t | Finish t | MarkUpstreamFailed t => t
  end.

(** The messages the successful task instances of a run deliver. *)
Definition delivered_by (d : DAG) (r : DagRun) : nat :=
  tasks_sum (λ t, if bool_decide (ti r t = Success)
                  then posts_of (operator (tasks d t)) true else 0%nat).

(** A call made by a task instance of the run that was executed. *)
Definition call_in_run (d : DAG) (r : DagRun) (c : Call) : Prop :=
  ∃ t, executed (ti r t) = true ∧ call_of (operator (tasks d t)) c.

(** The task instances that were started, in the order of the chain. *)
Definition started_tasks (r : DagRun) : list TaskId :=
  List.filter (λ t, started (ti r t)) all_tasks.

(** *** Accepted calls, resolved connections *)

(** Whether the service accepted the call. *)
Definition call_ok (c : Call) : bool :=
  match c with
  | CallSQL _ ok => ok
  | CallPresign _ _ res => bool_decide (is_Some res)
  | CallSlack _ ok => ok
  end.

Definition accepted (tr : list Call) : list Call := List.filter call_ok tr.

(** The task instances that succeeded, in the order of the chain. *)
Definition succeeded_tasks (r : DagRun) : list TaskId :=
  List.filter (λ t, bool_decide (ti r t = Success)) all_tasks.

(** A call of the task [op] went through what [op] resolves in the world
    [w]: its fields rendered after some calls [tr], and the connection of
    the registry they name; for a signing request, the client was built from
    the connection the dictionary of [w] names. *)
Definition call_resolved (env : Services) (w : World) (op : Operator)
    (c : Call) : Prop :=
  match op, c with
  | SQLTask o, CallSQL o' _ =>
      o' = o
      ∧ ∃ tr c', rendered_conn_id env tr o = Return c'
                 ∧ is_Some (connections w !! c')
  | PresignTask b k e, CallPresign cl r _ =>
      (∃ tr, rendered_request env tr b k e r)
      ∧ ∃ name conn,
          module_params w !! "aws_conn_id" = Some name
          ∧ connections w !! name = Some conn
          ∧ cl = Session_client (session_of conn) "s3" (Some "us-east-1")
  | NotifyTask _, CallSlack o _ =>
      (∃ url, o = notify_slack_operator url)
      ∧ is_Some (connections w !! "slack_webhook_conn")
  | _, _ => False
  end.

(** What a task needs before it can reach its service, after the calls
    [tr]: its fields render, and the registry of [w] has the connection. *)
Definition resolvable (env : Services) (tr : list Call) (w : World)
    (op : Operator) : Prop :=
  match op with
  | SQLTask o =>
      ∃ c', rendered_conn_id env tr o = Return c'
            ∧ succeeded (rendered_sql env tr o) = true
            ∧ is_Some (connections w !! c')
  | PresignTask b k _ =>
      succeeded (render_field env [] tr ∅ b) = true
      ∧ succeeded (render_field env [] tr ∅ k) = true
      ∧ ∃ name, module_params w !! "aws_conn_id" = Some name
                ∧ is_Some (connections w !! name)
  | NotifyTask _ => is_Some (connections w !! "slack_webhook_conn")
  end.

(** The calls [new], made after the calls [base], are calls of the task
    [op], each made when [op] resolved what it needs: after [base] and the
    calls of [new] before it. *)
Definition resolved_at (env : Services) (w : World) (op : Operator)
    (base new : list Call) : Prop :=
  ∀ i c, new !! i = Some c →
         call_of op c ∧ resolvable env (base ++ take i new) w op.

(** The call [c] is one task [t] of the DAG makes through what it resolves
    in the world [w]. *)
Definition resolved_by (env : Services) (w : World) (d : DAG) (t : TaskId)
    (c : Call) : Prop :=
  call_resolved env w (operator (tasks d t)) c.

(** The keys the module reads while it defines the DAG, in the order it
    reads them. *)
Definition definition_keys : list string :=
  [ "queries_base_path"; "snowflake_conn_id"; "bucket_s3"; "path"; "filename" ].

Definition first_missing (P : Params) (keys : list string) : option string :=
  List.find (λ k, bool_decide (P !! k = None)) keys.

(** The owner of a call: the task of the DAG that may have made it. *)
Definition owned_by (d : DAG) (t : TaskId) (c : Call) : Prop :=
  call_of (operator (tasks d t)) c.

(** ** Sample deployments, used to exercise the definitions *)

Definition sample_dir : string := "/opt/airflow/dags/account_monthly_balance_generation".

Definition plain_connection : Connection :=
  {| login := Some "user"; password := Some "secret"; extra_dejson := ∅ |}.

Definition aws_connection (region : option string) : Connection :=
  {| login := Some "AKIAEXAMPLE";
     password := Some "wJalrEXAMPLEKEY";
     extra_dejson :=
       match region with
       | Some r => {[ "region_name" := r ]}
       | None => ∅
       end |}.

Definition sample_world (region : option string) : World :=
  {| module_params := PARAMS_DEFINITION sample_dir;
     connections :=
       list_to_map
         [ ("snowflake_conn_id", plain_connection);
           ("aws_conn_id", aws_connection region);
           ("slack_webhook_conn", plain_connection) ];
     xcom := ∅;
     trace := [] |}.

(** A world whose registry lacks the warehouse connection. *)
Definition no_warehouse_world : World :=
  {| module_params := PARAMS_DEFINITION sample_dir;
     connections :=
       list_to_map
         [ ("aws_conn_id", aws_connection None);
           ("slack_webhook_conn", plain_connection) ];
     xcom := ∅;
     trace := [] |}.

Definition sample_sign (c : Client) (r : PresignRequest) : string :=
  "https://" +:+ Bucket r +:+ ".s3." +:+ client_region c +:+ ".amazonaws.com/"
    +:+ Key r +:+ "?X-Amz-Signature=0123abcd".

(** A template engine that gives plain strings back and knows no markup,
    over a search path that holds every file asked for. *)
Definition sample_jinja_string (s : string) : Result string :=
  if plain s then Return s else Raise (TemplateError s).

Definition sample_jinja_file (name : string) : Result string :=
  Return ("-- statement of " +:+ name).

(** Every service accepts every call. *)
Definition obliging : Services :=
  {| warehouse := λ _ _ _, true;
     s3_sign := λ _ c r, Some (sample_sign c r);
     webhook := λ _ _ _, true;
     jinja_string := λ _ _ s, sample_jinja_string s;
     jinja_file := λ _ _ name, sample_jinja_file name |}.

(** The warehouse rejects the load statement, every time. *)
Definition load_rejected : Services :=
  {| warehouse := λ _ _ op, bool_decide (sql_task_id op ≠ "load_to_s3");
     s3_sign := λ _ c r, Some (sample_sign c r);
     webhook := λ _ _ _, true;
     jinja_string := λ _ _ s, sample_jinja_string s;
     jinja_file := λ _ _ name, sample_jinja_file name |}.

(** The webhook rejects every message. *)
Definition webhook_down : Services :=
  {| warehouse := λ _ _ _, true;
     s3_sign := λ _ c r, Some (sample_sign c r);
     webhook := λ _ _ _, false;
     jinja_string := λ _ _ s, sample_jinja_string s;
     jinja_file := λ _ _ name, sample_jinja_file name |}.

Definition states (r : DagRun) : list TaskState := ti r <$> all_tasks.

Definition sample_dag : DAG :=
  match account_monthly_balance_generation (PARAMS_DEFINITION sample_dir) with
  | Return d => d
  | Raise _ =>
      {| template_searchpath := EmptyString;
         default_args := {| da_owner := None; da_retries := None |};
         tasks := λ _, {| operator := NotifyTask T_notify_slack; retries := None |};
         edges := [] |}
  end.

(** The schedule that runs the four tasks one after the other. *)
Definition chain_schedule : list Action :=
  [ Start T_create_table_snowflake; Finish T_create_table_snowflake;
    Start T_load_to_s3; Finish T_load_to_s3;
    Start T_generate_presigned_url; Finish T_generate_presigned_url;
    Start T_notify_slack; Finish T_notify_slack ].

(** The schedule of a run whose load statement fails. *)
Definition halted_schedule : list Action :=
  [ Start T_create_table_snowflake; Finish T_create_table_snowflake;
    Start T_load_to_s3; Finish T_load_to_s3;
    MarkUpstreamFailed T_generate_presigned_url;
    MarkUpstreamFailed T_notify_slack ].


(** * Properties *)

Section Task_bodies.

Context (env : Services).

Lemma extends_refl w : extends w w [].
Proof. unfold extends. by rewrite app_nil_r. Qed.

Lemma extends_trans w1 w2 w3 n1 n2 :
  extends w1 w2 n1 → extends w2 w3 n2 → extends w1 w3 (n1 ++ n2).
Proof.
  intros (Hp1 & Hc1 & Ht1) (Hp2 & Hc2 & Ht2). unfold extends.
  rewrite Hp2, Hp1, Hc2, Hc1, Ht2, Ht1. by rewrite app_assoc.
Qed.

Lemma extends_record c w : extends w (record_call c w) [c].
Proof. done. Qed.

Lemma posted_app tr1 tr2 : posted (tr1 ++ tr2) = posted tr1 ++ posted tr2.
Proof. unfold posted. apply omap_app. Qed.

(** What [SQLExecuteQueryOperator.execute] does, by cases on the registry
    and on the answer of the warehouse. *)
Lemma SQLExecuteQueryOperator_execute_eq op rendered w :
  SQLExecuteQueryOperator_execute env op rendered w =
    match connections w !! conn_id rendered with
    | None => (Raise (AirflowNotFoundException (conn_id rendered)), w)
    | Some c =>
        let ok := warehouse env (trace w) c rendered in
        (if ok then Return tt else Raise DatabaseError,
         record_call (CallSQL op ok) w)
    end.
Proof.
  unfold SQLExecuteQueryOperator_execute, bind, get_connection, get_trace, log.
  destruct (connections w !! conn_id rendered) as [c|]; [|done].
  simpl. by destruct (warehouse env (trace w) c rendered).
Qed.

Lemma SlackWebhookOperator_execute_eq op w :
  SlackWebhookOperator_execute env op w =
    match connections w !! slack_webhook_conn_id op with
    | None => (Raise (AirflowNotFoundException (slack_webhook_conn_id op)), w)
    | Some c =>
        let ok := webhook env (trace w) c op in
        (if ok then Return tt else Raise AirflowException,
         record_call (CallSlack op ok) w)
    end.
Proof.
  unfold SlackWebhookOperator_execute, bind, get_connection, get_trace, log.
  destruct (connections w !! slack_webhook_conn_id op) as [c|]; [|done].
  simpl. by destruct (webhook env (trace w) c op).
Qed.

Lemma generate_presigned_url_eq b k e w :
  generate_presigned_url env b k e w =
    match module_params w !! "aws_conn_id" with
    | None => (Raise (KeyError "aws_conn_id"), w)
    | Some name =>
        match connections w !! name with
        | None => (Raise (AirflowNotFoundException name), w)
        | Some conn =>
            let s3 := Session_client (session_of conn) "s3" (Some "us-east-1") in
            let res := s3_sign env (trace w) s3 (request_of b k e) in
            (match res with Some url => Return url | None => Raise ClientError end,
             record_call (CallPresign s3 (request_of b k e) res) w)
        end
    end.
Proof.
  unfold generate_presigned_url, bind, PARAMS_getitem, getitem, get_connection,
    Client_generate_presigned_url, get_trace, log.
  destruct (module_params w !! "aws_conn_id") as [name|]; [|done].
  destruct (connections w !! name) as [conn|]; [|done].
  unfold session_of, request_of. cbn.
  destruct (s3_sign env (trace w) _ _); reflexivity.
Qed.

Lemma posts_of_false op : posts_of op false = 0%nat.
Proof. by destruct op. Qed.

(** One try of each kind of task, by cases. *)
Lemma execute_sql_eq t o w :
  execute env t (SQLTask o) w =
    match rendered_conn_id env (trace w) o with
    | Raise e => (Raise e, w)
    | Return c' =>
        match rendered_sql env (trace w) o with
        | Raise e => (Raise e, w)
        | Return s' =>
            match connections w !! c' with
            | None => (Raise (AirflowNotFoundException c'), w)
            | Some conn =>
                let ok :=
                  warehouse env (trace w) conn
                    {| sql_task_id := sql_task_id o; sql := s';
                       conn_id := c'; params := params o |} in
                (if ok then Return tt else Raise DatabaseError,
                 record_call (CallSQL o ok) w)
            end
        end
    end.
Proof.
  unfold execute, bind, render_sql_fields, render_template, bind, ret,
    rendered_conn_id, rendered_sql.
  destruct (render_field env sql_template_ext (trace w) (params o) (conn_id o));
    [|done].
  destruct (render_field env sql_template_ext (trace w) (params o) (sql o));
    [|done].
  by rewrite SQLExecuteQueryOperator_execute_eq.
Qed.

Lemma execute_presign_eq t b k e w :
  execute env t (PresignTask b k e) w =
    match render_field env [] (trace w) ∅ b with
    | Raise x => (Raise x, w)
    | Return b' =>
        match render_field env [] (trace w) ∅ k with
        | Raise x => (Raise x, w)
        | Return k' =>
            match module_params w !! "aws_conn_id" with
            | None => (Raise (KeyError "aws_conn_id"), w)
            | Some name =>
                match connections w !! name with
                | None => (Raise (AirflowNotFoundException name), w)
                | Some conn =>
                    let s3 :=
                      Session_client (session_of conn) "s3" (Some "us-east-1") in
                    let res := s3_sign env (trace w) s3 (request_of b' k' e) in
                    let w' :=
                      record_call (CallPresign s3 (request_of b' k' e) res) w in
                    match res with
                    | Some url => (Return tt, (xcom_push t url w').2)
                    | None => (Raise ClientError, w')
                    end
                end
            end
        end
    end.
Proof.
  unfold execute, bind, render_template.
  destruct (render_field env [] (trace w) ∅ b) as [b'|]; [|done].
  destruct (render_field env [] (trace w) ∅ k) as [k'|]; [|done].
  rewrite generate_presigned_url_eq.
  destruct (module_params w !! "aws_conn_id") as [name|]; [|done].
  destruct (connections w !! name) as [conn|]; [|done].
  cbn. by destruct (s3_sign env (trace w) _ _).
Qed.

Lemma execute_notify_eq t src w :
  execute env t (NotifyTask src) w =
    let op := notify_slack_operator (str_of (xcom w !! task_id src)) in
    match connections w !! "slack_webhook_conn" with
    | None => (Raise (AirflowNotFoundException "slack_webhook_conn"), w)
    | Some c =>
        let ok := webhook env (trace w) c op in
        (if ok then Return tt else Raise AirflowException,
         record_call (CallSlack op ok) w)
    end.
Proof.
  unfold execute, bind, xcom_pull, notify_slack.
  by rewrite SlackWebhookOperator_execute_eq.
Qed.

(** One try of a task: the dictionary and the registry are left alone, at
    most one call is made, it is a call of that task, and a message is
    delivered exactly when the task is the notifier and the try succeeds. *)
Lemma execute_spec t op w :
  ∃ new,
    extends w (execute env t op w).2 new
    ∧ Forall (call_of op) new
    ∧ length (posted new) = posts_of op (succeeded (execute env t op w).1)
    ∧ (length new ≤ 1)%nat.
Proof.
  destruct op as [o | b k e | src].
  - rewrite execute_sql_eq.
    destruct (rendered_conn_id env (trace w) o) as [c'|];
      [destruct (rendered_sql env (trace w) o) as [s'|];
       [destruct (connections w !! c') as [conn|] | ] | ];
      try (exists []; cbn; split_and!;
           [apply extends_refl | constructor | done | lia]).
    eexists [CallSQL o _]. cbn.
    split_and!; [apply extends_record | by constructor | done | done].
  - rewrite execute_presign_eq.
    destruct (render_field env [] (trace w) ∅ b) as [b'|];
      [destruct (render_field env [] (trace w) ∅ k) as [k'|];
       [destruct (module_params w !! "aws_conn_id") as [name|];
        [destruct (connections w !! name) as [conn|] | ] | ] | ];
      try (exists []; cbn; split_and!;
           [apply extends_refl | constructor | done | lia]).
    set (s3 := Session_client _ _ _).
    exists [CallPresign s3 (request_of b' k' e)
              (s3_sign env (trace w) s3 (request_of b' k' e))].
    cbn. destruct (s3_sign env (trace w) s3 (request_of b' k' e)); cbn;
      (split_and!; [done | by constructor | done | done]).
  - rewrite execute_notify_eq. cbn zeta.
    destruct (connections w !! "slack_webhook_conn") as [c|].
    + set (op := notify_slack_operator _).
      exists [CallSlack op (webhook env (trace w) c op)]. cbn.
      destruct (webhook env (trace w) c op); cbn;
        (split_and!; [apply extends_record | | done | done]);
        constructor; [by eexists | constructor | by eexists | constructor].
    + exists []. cbn. split_and!; [apply extends_refl | constructor | done | lia].
Qed.

(** A task instance with its retries: the same, for any number of calls. *)
Lemma run_with_retries_spec t op n w :
  ∃ new,
    extends w (run_with_retries n (execute env t op) w).2 new
    ∧ Forall (call_of op) new
    ∧ length (posted new) = posts_of op (run_with_retries n (execute env t op) w).1.
Proof.
  revert w. induction n as [|n IH]; intros w;
    destruct (execute_spec t op w) as (new & Hext & Hcalls & Hposted & _);
    cbn [run_with_retries];
    destruct (execute env t op w) as [[a|e] w'] eqn:Hbody; cbn in *.
  - by exists new.
  - by exists new.
  - by exists new.
  - destruct (IH w') as (new' & Hext' & Hcalls' & Hposted').
    exists (new ++ new'). split_and!.
    + by eapply extends_trans.
    + by apply Forall_app.
    + rewrite posted_app, length_app, Hposted, posts_of_false. done.
Qed.

(** A task instance with [n] retries makes at most [n + 1] calls. *)
Lemma run_with_retries_calls t op n w :
  ∃ new,
    trace (run_with_retries n (execute env t op) w).2 = trace w ++ new
    ∧ (length new ≤ S n)%nat.
Proof.
  revert w. induction n as [|n IH]; intros w;
    destruct (execute_spec t op w) as (new & (_ & _ & Ht) & _ & _ & Hlen);
    cbn [run_with_retries];
    destruct (execute env t op w) as [[a|e] w'] eqn:Hbody; cbn in *;
    try (exists new; split; [done|lia]).
  destruct (IH w') as (new' & Ht' & Hlen').
  exists (new ++ new'). rewrite Ht', Ht, app_assoc, length_app.
  split; [done|lia].
Qed.

End Task_bodies.

(** ** The scheduler, for any DAG *)

Section Scheduler.

Context (env : Services) (d : DAG).

Lemma enabled_unfinished r a :
  enabled d r a = true → finished (ti r (target a)) = false.
Proof.
  destruct a as [t|t|t]; cbn; intros H.
  - apply andb_prop in H as [H _]. apply bool_decide_eq_true in H. by rewrite H.
  - apply bool_decide_eq_true in H. by rewrite H.
  - apply andb_prop in H as [H _]. apply bool_decide_eq_true in H. by rewrite H.
Qed.

Lemma perform_other r a t :
  t ≠ target a → ti (perform env d r a) t = ti r t.
Proof.
  intros Hne. destruct a as [x|x|x]; cbn in *; by rewrite fn_lookup_insert_ne.
Qed.

(** A finished task instance keeps its state. *)
Lemma step_finished_stable r r' t :
  step env d r r' → finished (ti r t) = true → ti r' t = ti r t.
Proof.
  intros [r0 a Hen] Hfin. apply perform_other. intros ->.
  apply enabled_unfinished in Hen. congruence.
Qed.

Lemma step_success_stable r r' t :
  step env d r r' → ti r t = Success → ti r' t = Success.
Proof.
  intros Hstep Hs. erewrite step_finished_stable; eauto. by rewrite Hs.
Qed.

(** The state a task instance is in after a step that changed it. *)
Lemma step_changed r r' t :
  step env d r r' → ti r' t ≠ ti r t →
    (ti r t = Scheduled ∧ ti r' t = Running
       ∧ ∀ u, u ∈ upstream d t → ti r u = Success)
    ∨ (ti r t = Running ∧ executed (ti r' t) = true)
    ∨ (ti r t = Scheduled ∧ ti r' t = UpstreamFailed
       ∧ ∃ u, u ∈ upstream d t ∧ is_failure (ti r u) = true).
Proof.
  intros [r0 a Hen] Hne.
  destruct (decide (t = target a)) as [->|Hother];
    [|by rewrite perform_other in Hne].
  destruct a as [x|x|x]; cbn in *; rewrite fn_lookup_insert.
  - apply andb_prop in Hen as [H1 H2]. apply bool_decide_eq_true in H1.
    left. split_and!; [done..|]. intros u Hu.
    rewrite forallb_forall in H2. apply list_elem_of_In in Hu.
    specialize (H2 _ Hu). by apply bool_decide_eq_true in H2.
  - apply bool_decide_eq_true in Hen. right; left. split; [done|].
    by destruct (run_task_instance env d x (world r0)).1.
  - apply andb_prop in Hen as [H1 H2]. apply bool_decide_eq_true in H1.
    right; right. split_and!; [done..|].
    apply existsb_exists in H2 as (u & Hu & Hf). exists u.
    by rewrite list_elem_of_In.
Qed.

(** Trigger rule: whatever was started has all its upstream tasks
    successful. *)
Lemma reachable_upstream_success w0 r u t :
  reachable env d (new_run w0) r →
  u ∈ upstream d t → started (ti r t) = true → ti r u = Success.
Proof.
  intros Hreach Hu. induction Hreach as [|r r' _ IH Hstep]; [done|].
  intros Hst. destruct (decide (ti r' t = ti r t)) as [Heq|Hne].
  - rewrite Heq in Hst. eapply step_success_stable; eauto.
  - eapply step_success_stable; [done|].
    destruct (step_changed _ _ _ Hstep Hne)
      as [(_ & _ & Hall) | [(Hrun & _) | (_ & Huf & _)]].
    + by apply Hall.
    + apply IH. by rewrite Hrun.
    + by rewrite Huf in Hst.
Qed.

(** A task instance is marked [UpstreamFailed] only below a failure. *)
Lemma reachable_upstream_failed w0 r t :
  reachable env d (new_run w0) r →
  ti r t = UpstreamFailed →
  ∃ u, u ∈ upstream d t ∧ is_failure (ti r u) = true.
Proof.
  intros Hreach. induction Hreach as [|r r' _ IH Hstep]; [done|].
  intros Huf.
  assert (Hkeep : ∀ u, is_failure (ti r u) = true → is_failure (ti r' u) = true).
  { intros u Hf. erewrite step_finished_stable; eauto. by destruct (ti r u). }
  destruct (decide (ti r' t = ti r t)) as [Heq|Hne].
  - rewrite Heq in Huf. destruct (IH Huf) as (u & Hu & Hf). eauto.
  - destruct (step_changed _ _ _ Hstep Hne)
      as [(_ & Hrun & _) | [(_ & Hex) | (_ & _ & u & Hu & Hf)]].
    + congruence.
    + by rewrite Huf in Hex.
    + eauto.
Qed.

Lemma tasks_sum_insert (g : TaskId → TaskState → nat) (f : TaskId → TaskState) x s :
  (tasks_sum (λ t, g t (<[x:=s]> f t)) + g x (f x) =
   tasks_sum (λ t, g t (f t)) + g x s)%nat.
Proof.
  unfold tasks_sum. cbn [foldr all_tasks].
  destruct x;
    repeat first [rewrite fn_lookup_insert | rewrite fn_lookup_insert_ne by done];
    lia.
Qed.

(** Every step uses up some of the work left. *)
Lemma enabled_remaining r a :
  enabled d r a = true → (remaining (perform env d r a) < remaining r)%nat.
Proof.
  intros Hen. unfold remaining.
  destruct a as [x|x|x]; cbn in *;
    pose proof (tasks_sum_insert (λ _, weight) (ti r) x) as Hsum; cbn in Hsum.
  - apply andb_prop in Hen as [H _]. apply bool_decide_eq_true in H.
    specialize (Hsum Running). rewrite H in Hsum. cbn in Hsum. lia.
  - apply bool_decide_eq_true in Hen.
    specialize (Hsum (if (run_task_instance env d x (world r)).1
                      then Success else Failed)).
    rewrite Hen in Hsum.
    destruct (run_task_instance env d x (world r)).1; cbn in Hsum; lia.
  - apply andb_prop in Hen as [H _]. apply bool_decide_eq_true in H.
    specialize (Hsum UpstreamFailed). rewrite H in Hsum. cbn in Hsum. lia.
Qed.

Lemma schedule_reachable n r0 r :
  reachable env d r0 r → reachable env d r0 (schedule env n d r).
Proof.
  revert r. induction n as [|n IH]; intros r Hr; cbn [schedule]; [done|].
  destruct (List.find (enabled d r) all_actions) as [a|] eqn:Hfind; [|done].
  apply find_some in Hfind as [_ Hen].
  apply IH. eapply reachable_step; [done|]. by constructor.
Qed.

(** The scheduler stops with nothing left to do, given fuel for the work
    that is left. *)
Lemma schedule_quiescent n r :
  (remaining r ≤ n)%nat →
  List.find (enabled d (schedule env n d r)) all_actions = None.
Proof.
  revert r. induction n as [|n IH]; intros r Hn; cbn [schedule].
  - destruct (List.find (enabled d r) all_actions) as [a|] eqn:Hfind; [|done].
    apply find_some in Hfind as [_ Hen]. apply enabled_remaining in Hen. lia.
  - destruct (List.find (enabled d r) all_actions) as [a|] eqn:Hfind; [|done].
    apply find_some in Hfind as [_ Hen]. apply enabled_remaining in Hen.
    apply IH. lia.
Qed.

Lemma follow_reachable r0 acts r r' :
  reachable env d r0 r → follow env d r acts = Some r' →
  reachable env d r0 r'.
Proof.
  revert r. induction acts as [|a acts IH]; intros r Hr; cbn [follow].
  - by intros [= <-].
  - destruct (enabled d r a) eqn:Hen; [|done].
    apply IH. eapply reachable_step; [done|]. by constructor.
Qed.

Lemma follow_new_run w acts r :
  follow env d (new_run w) acts = Some r → reachable env d (new_run w) r.
Proof. apply follow_reachable. constructor. Qed.

Lemma run_reachable w : reachable env d (new_run w) (run env d w).
Proof. apply schedule_reachable. constructor. Qed.

Lemma run_quiescent w :
  List.find (enabled d (run env d w)) all_actions = None.
Proof. apply schedule_quiescent. cbn. lia. Qed.

Lemma delivered_by_insert r x s ord w :
  ti r x ≠ Success →
  delivered_by d {| ti := <[x:=s]> (ti r); order := ord; world := w |} =
    (delivered_by d r
     + (if bool_decide (s = Success)
        then posts_of (operator (tasks d x)) true else 0))%nat.
Proof.
  intros Hx. unfold delivered_by. cbn [ti].
  pose proof (tasks_sum_insert
    (λ t s, if bool_decide (s = Success)
            then posts_of (operator (tasks d t)) true else 0%nat)
    (ti r) x s) as Hsum.
  cbn beta in Hsum. rewrite (bool_decide_false (ti r x = Success)) in Hsum by done.
  lia.
Qed.

Lemma call_in_run_step r r' c :
  step env d r r' → call_in_run d r c → call_in_run d r' c.
Proof.
  intros Hstep (t & Hex & Hcall). exists t. split; [|done].
  erewrite step_finished_stable; eauto. by destruct (ti r t).
Qed.

(** What a run has done to the world: the dictionary and the registry are
    as they were, every call added to the trace is a call of a task
    instance that was executed, and the messages delivered are those of
    the successful task instances. *)
Lemma reachable_world w0 r :
  reachable env d (new_run w0) r →
  ∃ new,
    extends w0 (world r) new
    ∧ Forall (call_in_run d r) new
    ∧ length (posted new) = delivered_by d r.
Proof.
  induction 1 as [|r r' _ (new & Hext & Hcalls & Hposted) Hstep].
  { exists []. split_and!; [apply extends_refl | constructor | done]. }
  assert (Hcalls' : Forall (call_in_run d r') new).
  { eapply Forall_impl; [|exact Hcalls]. intros c. by apply call_in_run_step. }
  destruct Hstep as [r a Hen].
  destruct a as [x|x|x]; cbn [enabled perform world] in *.
  - apply andb_prop in Hen as [H _]. apply bool_decide_eq_true in H.
    exists new. split_and!; [done..|].
    rewrite delivered_by_insert by congruence.
    rewrite bool_decide_false by done. lia.
  - apply bool_decide_eq_true in Hen.
    destruct (run_with_retries_spec env x (operator (tasks d x))
                (task_retries d x) (world r))
      as (new' & Hext' & Hcalls2 & Hposted').
    fold (run_task_instance env d x (world r)) in Hext', Hposted'.
    exists (new ++ new'). split_and!.
    + by eapply extends_trans.
    + apply Forall_app. split; [done|].
      eapply Forall_impl; [|exact Hcalls2]. intros c Hc. exists x. split; [|done].
      cbn. rewrite fn_lookup_insert.
      by destruct (run_task_instance env d x (world r)).1.
    + rewrite posted_app, length_app, Hposted, Hposted'.
      rewrite delivered_by_insert by congruence.
      destruct (run_task_instance env d x (world r)).1.
      * by rewrite bool_decide_true.
      * rewrite bool_decide_false by done. by rewrite posts_of_false.
  - apply andb_prop in Hen as [H _]. apply bool_decide_eq_true in H.
    exists new. split_and!; [done..|].
    rewrite delivered_by_insert by congruence.
    rewrite bool_decide_false by done. lia.
Qed.

(** A successful task instance succeeded in a world that has the
    dictionary and the registry the run began with. *)
Lemma reachable_success_cause w0 r t :
  reachable env d (new_run w0) r →
  ti r t = Success →
  ∃ w1 new1, extends w0 w1 new1 ∧ (run_task_instance env d t w1).1 = true.
Proof.
  induction 1 as [|r r' Hreach IH Hstep]; [done|].
  intros Hs. destruct (decide (ti r' t = ti r t)) as [Heq|Hne].
  { apply IH. by rewrite <- Heq. }
  destruct Hstep as [r a Hen].
  destruct (decide (t = target a)) as [->|Hother];
    [|by rewrite perform_other in Hne].
  destruct a as [x|x|x]; cbn [perform ti target] in Hs;
    rewrite fn_lookup_insert in Hs; try done.
  destruct (reachable_world w0 r Hreach) as (new & Hext & _).
  exists (world r), new. split; [done|].
  cbn [target].
  destruct (run_task_instance env d x (world r)).1; [done|discriminate].
Qed.

End Scheduler.

(** ** The DAG of this workflow *)

Section Workflow.

Context (env : Services) (P : Params) (d : DAG).
Hypothesis Hd : account_monthly_balance_generation P = Return d.

(** The DAG the [@dag] function returns, field by field. *)
Lemma dag_shape :
  ∃ sp c b p f,
    P !! "queries_base_path" = Some sp
    ∧ P !! "snowflake_conn_id" = Some c
    ∧ P !! "bucket_s3" = Some b
    ∧ P !! "path" = Some p
    ∧ P !! "filename" = Some f
    ∧ template_searchpath d = sp
    ∧ default_args d = {| da_owner := Some "AFMP"; da_retries := Some 3%nat |}
    ∧ edges d = [ (T_create_table_snowflake, T_load_to_s3);
                  (T_load_to_s3, T_generate_presigned_url);
                  (T_generate_presigned_url, T_notify_slack) ]
    ∧ (∀ t, retries (tasks d t) = None)
    ∧ operator (tasks d T_create_table_snowflake) =
        SQLTask {| sql_task_id := "create_table_snowflake";
                   sql := "create_table_snowflake.sql";
                   conn_id := c; params := P |}
    ∧ operator (tasks d T_load_to_s3) =
        SQLTask {| sql_task_id := "load_to_s3";
                   sql := "load_to_s3.sql";
                   conn_id := c; params := P |}
    ∧ operator (tasks d T_generate_presigned_url) =
        PresignTask b (p +:+ "/" +:+ f) 604800
    ∧ operator (tasks d T_notify_slack) = NotifyTask T_generate_presigned_url.
Proof.
  revert Hd. unfold account_monthly_balance_generation, rbind, getitem.
  destruct (P !! "queries_base_path") as [sp|]; [|done].
  destruct (P !! "snowflake_conn_id") as [c|]; [|done].
  destruct (P !! "bucket_s3") as [b|]; [|done].
  destruct (P !! "path") as [p|]; [|done].
  destruct (P !! "filename") as [f|]; [|done].
  intros [= <-]. exists sp, c, b, p, f. by split_and!.
Qed.

Lemma upstream_eq :
  upstream d T_create_table_snowflake = []
  ∧ upstream d T_load_to_s3 = [T_create_table_snowflake]
  ∧ upstream d T_generate_presigned_url = [T_load_to_s3]
  ∧ upstream d T_notify_slack = [T_generate_presigned_url].
Proof.
  destruct dag_shape as (? & ? & ? & ? & ? & _ & _ & _ & _ & _ & _ & _ & He & _).
  unfold upstream. rewrite He. by split_and!.
Qed.

Lemma leaves_eq : leaves d = [T_notify_slack].
Proof.
  destruct dag_shape as (? & ? & ? & ? & ? & _ & _ & _ & _ & _ & _ & _ & He & _).
  unfold leaves, downstream. by rewrite He.
Qed.

(** The task just before a task in the chain is its upstream task. *)
Lemma upstream_position u t :
  position t = S (position u) → u ∈ upstream d t.
Proof.
  destruct upstream_eq as (_ & Hl & Hg & Hn).
  destruct t, u; cbn; intros [=];
    rewrite ?Hl, ?Hg, ?Hn; apply list_elem_of_singleton; done.
Qed.

(** The whole chain above a started task instance has succeeded. *)
Lemma chain_success w0 r u t :
  reachable env d (new_run w0) r →
  before u t → started (ti r t) = true → ti r u = Success.
Proof.
  intros Hreach.
  assert (Hpred : ∀ u t, position t = S (position u) →
                         started (ti r t) = true → ti r u = Success).
  { intros u' t' Hpos. eapply reachable_upstream_success; [done|].
    by apply upstream_position. }
  assert (Hs : ∀ v, ti r v = Success → started (ti r v) = true).
  { by intros v ->. }
  pose proof (Hpred T_create_table_snowflake T_load_to_s3 eq_refl) as H1.
  pose proof (Hpred T_load_to_s3 T_generate_presigned_url eq_refl) as H2.
  pose proof (Hpred T_generate_presigned_url T_notify_slack eq_refl) as H3.
  unfold before.
  destruct t, u; cbn; intros Hlt Hst; try lia; auto 8.
Qed.

Lemma before_total t u : t ≠ u → before t u ∨ before u t.
Proof. unfold before. destruct t, u; cbn; intros ?; try done; lia. Qed.

Lemma running_unique w0 r t u :
  reachable env d (new_run w0) r →
  ti r t = Running → ti r u = Running → t = u.
Proof.
  intros Hreach Ht Hu. destruct (decide (t = u)) as [|Hne]; [done|].
  destruct (before_total _ _ Hne) as [Hlt|Hlt].
  - pose proof (chain_success w0 r t u Hreach Hlt) as H.
    rewrite Hu, Ht in H. by specialize (H eq_refl).
  - pose proof (chain_success w0 r u t Hreach Hlt) as H.
    rewrite Hu, Ht in H. by specialize (H eq_refl).
Qed.

(** Below a task instance that failed or was not run, nothing starts. *)
Lemma failure_blocks w0 r t u :
  reachable env d (new_run w0) r →
  is_failure (ti r t) = true → before t u → started (ti r u) = false.
Proof.
  intros Hreach Hf Hlt. destruct (started (ti r u)) eqn:Hst; [|done].
  rewrite (chain_success w0 r t u Hreach Hlt Hst) in Hf. done.
Qed.

(** The task instances were started in the order of the chain. *)
Lemma order_started w0 r :
  reachable env d (new_run w0) r → order r = started_tasks r.
Proof.
  induction 1 as [|r r' Hreach IH Hstep]; [done|].
  assert (Hreach' : reachable env d (new_run w0) r')
    by (eapply reachable_step; eauto).
  destruct Hstep as [r a Hen].
  destruct a as [x|x|x]; cbn [enabled perform order] in *.
  - apply andb_prop in Hen as [Hsched _]. apply bool_decide_eq_true in Hsched.
    assert (Hup : ∀ u, before u x → ti r u = Success).
    { intros u Hu.
      pose proof (chain_success w0 _ u x Hreach' Hu) as H. cbn in H.
      rewrite fn_lookup_insert in H.
      rewrite fn_lookup_insert_ne in H; [by apply H|].
      intros ->. unfold before in Hu. lia. }
    assert (Hdown : ∀ v, before x v → started (ti r v) = false).
    { intros v Hv. destruct (started (ti r v)) eqn:Hst; [|done].
      rewrite (chain_success w0 r x v Hreach Hv Hst) in Hsched. done. }
    rewrite IH. unfold started_tasks. cbn [List.filter all_tasks ti].
    destruct x;
      repeat first [rewrite fn_lookup_insert
                   | rewrite fn_lookup_insert_ne by done];
      rewrite ?Hsched;
      repeat match goal with
             | |- context [started (ti r ?v)] =>
                 first [ rewrite (Hdown v) by solve_before
                       | rewrite (Hup v) by solve_before ]
             end;
      reflexivity.
  - apply bool_decide_eq_true in Hen.
    rewrite IH. unfold started_tasks. cbn [ti].
    apply filter_ext. intros t.
    destruct (decide (x = t)) as [->|];
      [rewrite fn_lookup_insert, Hen | by rewrite fn_lookup_insert_ne].
    by destruct (run_task_instance env d t (world r)).1.
  - apply andb_prop in Hen as [Hsched _]. apply bool_decide_eq_true in Hsched.
    rewrite IH. unfold started_tasks. cbn [ti].
    apply filter_ext. intros t.
    destruct (decide (x = t)) as [->|];
      [by rewrite fn_lookup_insert, Hsched | by rewrite fn_lookup_insert_ne].
Qed.

Lemma order_prefix w0 r :
  reachable env d (new_run w0) r → ∃ k, order r = take k all_tasks.
Proof.
  intros Hreach. rewrite (order_started w0 r Hreach).
  assert (Hdc : ∀ u t, before u t → started (ti r t) = true →
                       started (ti r u) = true).
  { intros u t Hlt Hst. by rewrite (chain_success w0 r u t Hreach Hlt Hst). }
  unfold started_tasks. cbn [List.filter all_tasks].
  destruct (started (ti r T_create_table_snowflake)) eqn:E1,
           (started (ti r T_load_to_s3)) eqn:E2,
           (started (ti r T_generate_presigned_url)) eqn:E3,
           (started (ti r T_notify_slack)) eqn:E4;
    first [ by exists 0%nat | by exists 1%nat | by exists 2%nat
          | by exists 3%nat | by exists 4%nat
          | exfalso;
            match goal with
            | Ht : started (ti r ?t) = true, Hu : started (ti r ?u) = false |- _ =>
                rewrite (Hdc u t) in Hu; [done | solve_before | done]
            end ].
Qed.

(** When the scheduler has nothing left to do, every task instance is
    finished. *)
Lemma quiescent_finished r t :
  List.find (enabled d r) all_actions = None → finished (ti r t) = true.
Proof.
  intros Hnone. pose proof (find_none _ _ Hnone) as Hno.
  destruct upstream_eq as (Hc & Hl & Hg & Hn).
  assert (HF : ∀ t, enabled d r (Finish t) = false)
    by (intros u; apply Hno; destruct u; cbn; tauto).
  assert (HS : ∀ t, enabled d r (Start t) = false)
    by (intros u; apply Hno; destruct u; cbn; tauto).
  assert (HM : ∀ t, enabled d r (MarkUpstreamFailed t) = false)
    by (intros u; apply Hno; destruct u; cbn; tauto).
  assert (H1 : finished (ti r T_create_table_snowflake) = true).
  { pose proof (HF T_create_table_snowflake) as A.
    pose proof (HS T_create_table_snowflake) as B.
    cbn in A, B. rewrite Hc in B.
    by destruct (ti r T_create_table_snowflake). }
  assert (H2 : finished (ti r T_load_to_s3) = true).
  { pose proof (HF T_load_to_s3) as A. pose proof (HS T_load_to_s3) as B.
    pose proof (HM T_load_to_s3) as C.
    cbn in A, B, C. rewrite Hl in B, C. cbn in B, C.
    destruct (ti r T_create_table_snowflake), (ti r T_load_to_s3);
      vm_compute in A, B, C, H1 |- *; done. }
  assert (H3 : finished (ti r T_generate_presigned_url) = true).
  { pose proof (HF T_generate_presigned_url) as A.
    pose proof (HS T_generate_presigned_url) as B.
    pose proof (HM T_generate_presigned_url) as C.
    cbn in A, B, C. rewrite Hg in B, C. cbn in B, C.
    destruct (ti r T_load_to_s3), (ti r T_generate_presigned_url);
      vm_compute in A, B, C, H2 |- *; done. }
  assert (H4 : finished (ti r T_notify_slack) = true).
  { pose proof (HF T_notify_slack) as A. pose proof (HS T_notify_slack) as B.
    pose proof (HM T_notify_slack) as C.
    cbn in A, B, C. rewrite Hn in B, C. cbn in B, C.
    destruct (ti r T_generate_presigned_url), (ti r T_notify_slack);
      vm_compute in A, B, C, H3 |- *; done. }
  by destruct t.
Qed.

(** A call in the trace tells which task made it. *)
Lemma call_of_task_unique t1 t2 c :
  call_of (operator (tasks d t1)) c → call_of (operator (tasks d t2)) c → t1 = t2.
Proof.
  destruct dag_shape
    as (? & ? & ? & ? & ? & _ & _ & _ & _ & _ & _ & _ & _ & _ & H1 & H2 & H3 & H4).
  destruct t1, t2; try done;
    rewrite ?H1, ?H2, ?H3, ?H4; destruct c; cbn; try done; congruence.
Qed.

(** No call of a task that was not executed is in the trace. *)
Lemma unexecuted_makes_no_call w0 r new u c :
  reachable env d (new_run w0) r →
  trace (world r) = trace w0 ++ new →
  executed (ti r u) = false →
  c ∈ new → ¬ call_of (operator (tasks d u)) c.
Proof.
  intros Hreach Htrace Hu Hc Hcall.
  destruct (reachable_world env d w0 r Hreach) as (new' & (_ & _ & Ht) & Hcalls & _).
  rewrite Htrace in Ht. apply app_inv_head in Ht as <-.
  rewrite Forall_forall in Hcalls. apply list_elem_of_In in Hc.
  destruct (Hcalls c Hc) as (t & Hex & Hcall').
  rewrite (call_of_task_unique _ _ _ Hcall Hcall') in Hu. congruence.
Qed.

(** A successful run has started the four tasks, in this order. *)
Lemma success_order w0 r :
  reachable env d (new_run w0) r →
  ti r T_notify_slack = Success → order r = all_tasks.
Proof.
  intros Hreach Hs. rewrite (order_started w0 r Hreach).
  assert (Hall : ∀ u, before u T_notify_slack → ti r u = Success).
  { intros u Hu. apply (chain_success w0 r u T_notify_slack Hreach Hu).
    by rewrite Hs. }
  unfold started_tasks. cbn [List.filter all_tasks].
  rewrite Hs, !Hall by solve_before. done.
Qed.

(** With retries or without, a statement for a connection the registry
    does not have fails and leaves the world as it is. *)
Lemma missing_connection_fails t op n w :
  (∀ c', rendered_conn_id env (trace w) op = Return c' →
         connections w !! c' = None) →
  run_with_retries n (execute env t (SQLTask op)) w = (false, w).
Proof.
  intros Hmiss.
  assert (Htry : ∃ e, execute env t (SQLTask op) w = (Raise e, w)).
  { rewrite execute_sql_eq.
    destruct (rendered_conn_id env (trace w) op) as [c'|]; [|by eexists].
    destruct (rendered_sql env (trace w) op); [|by eexists].
    rewrite (Hmiss c' eq_refl). by eexists. }
  destruct Htry as (e & Htry).
  induction n as [|n IH]; cbn [run_with_retries]; by rewrite Htry.
Qed.

(** A run always comes to an end. *)
Lemma run_finished w t : finished (ti (run env d w) t) = true.
Proof. apply quiescent_finished, run_quiescent. Qed.

Lemma run_state w :
  dagrun_state d (run env d w) =
    if bool_decide (ti (run env d w) T_notify_slack = Success)
    then RunSuccess else RunFailed.
Proof.
  unfold dagrun_state. rewrite leaves_eq. cbn [forallb all_tasks].
  rewrite !run_finished. cbn. by rewrite andb_true_r.
Qed.

(** A run with a failed task instance is a failed run, and the task
    instances below the failure were not run. *)
Lemma run_failure w t :
  ti (run env d w) t = Failed →
  dagrun_state d (run env d w) = RunFailed
  ∧ ∀ u, before t u → ti (run env d w) u = UpstreamFailed.
Proof.
  intros Hf.
  assert (Hdown : ∀ u, before t u → ti (run env d w) u = UpstreamFailed).
  { intros u Hu.
    pose proof (failure_blocks w _ t u (run_reachable env d w)) as Hb.
    rewrite Hf in Hb. specialize (Hb eq_refl Hu).
    pose proof (run_finished w u) as Hfin.
    by destruct (ti (run env d w) u). }
  split; [|done]. rewrite run_state.
  destruct (decide (t = T_notify_slack)) as [->|Hne].
  - by rewrite Hf.
  - rewrite Hdown; [done|]. unfold before. destruct t; cbn; try lia. done.
Qed.

(** The registry lacks the warehouse connection: the first step fails. *)
Lemma missing_warehouse_connection w c :
  P !! "snowflake_conn_id" = Some c →
  (∀ tr c', render_field env sql_template_ext tr P c = Return c' →
            connections w !! c' = None) →
  ti (run env d w) T_create_table_snowflake = Failed.
Proof.
  intros HP Hmiss.
  destruct dag_shape
    as (? & c' & ? & ? & ? & _ & HP' & _ & _ & _ & _ & _ & _ & _ & Hop & _).
  assert (c' = c) as -> by congruence.
  pose proof (run_reachable env d w) as Hreach.
  pose proof (run_finished w T_create_table_snowflake) as Hfin.
  destruct (ti (run env d w) T_create_table_snowflake) eqn:Hst; try done.
  - destruct (reachable_success_cause env d w _ _ Hreach Hst)
      as (w1 & new1 & (_ & Hconn & _) & Hok).
    unfold run_task_instance in Hok. rewrite Hop in Hok.
    rewrite missing_connection_fails in Hok; [done|].
    intros c' Hc'. rewrite Hconn. by apply (Hmiss (trace w1)).
  - destruct (reachable_upstream_failed env d w _ _ Hreach Hst) as (u & Hu & _).
    destruct upstream_eq as (Hc & _). rewrite Hc in Hu. by apply elem_of_nil in Hu.
Qed.

End Workflow.

(** ** One try, and a task instance with its retries *)

Section Tries.

Context (env : Services).

Lemma accepted_app tr1 tr2 : accepted (tr1 ++ tr2) = accepted tr1 ++ accepted tr2.
Proof. unfold accepted. apply List.filter_app. Qed.

(** [call_resolved] and [resolvable] look at the dictionary and the
    registry only. *)
Lemma call_resolved_extends w w' new op c :
  extends w w' new → call_resolved env w' op c → call_resolved env w op c.
Proof.
  intros (Hp & Hc & _). destruct op, c; cbn; by rewrite ?Hp, ?Hc.
Qed.

Lemma resolvable_extends tr w w' new op :
  extends w w' new → resolvable env tr w op → resolvable env tr w' op.
Proof.
  intros (Hp & Hc & _). destruct op; cbn; by rewrite ?Hp, ?Hc.
Qed.

Lemma call_resolved_call_of w op c : call_resolved env w op c → call_of op c.
Proof.
  destruct op as [o | b k e | src], c as [o' ok | cl r res | o' ok]; cbn;
    try done.
  - by intros (-> & _).
  - intros ((tr & b' & k' & _ & _ & ->) & name & conn & _ & _ & ->). done.
  - by intros (? & _).
Qed.

(** One try of a task, by cases.  Either the task does not resolve what it
    needs: the try raises before any call, and the world is as it was.  Or
    it does: the try makes exactly one call, through what it resolved, and
    succeeds exactly when the call is accepted; only an accepted signing
    request changes the XCom store, which then holds, for the task, the URL
    that was returned; and the message of the notifier is built from what
    the XCom store held for the upstream task. *)
Lemma execute_cases t op w :
  (¬ resolvable env (trace w) w op
   ∧ ∃ e, execute env t op w = (Raise e, w))
  ∨ (resolvable env (trace w) w op
     ∧ ∃ c e w',
         execute env t op w = (if call_ok c then Return tt else Raise e, w')
         ∧ extends w w' [c]
         ∧ call_resolved env w op c
         ∧ xcom w' =
             match op, c with
             | PresignTask _ _ _, CallPresign _ _ (Some url) =>
                 <[task_id t := url]> (xcom w)
             | _, _ => xcom w
             end
         ∧ match op, c with
           | NotifyTask src, CallSlack o _ =>
               o = notify_slack_operator (str_of (xcom w !! task_id src))
           | _, _ => True
           end).
Proof.
  destruct op as [o | b k e | src].
  - rewrite execute_sql_eq. cbn [resolvable].
    destruct (rendered_conn_id env (trace w) o) as [c'|x] eqn:Hc;
      [|left; split; [by intros (? & [=] & _) | by eexists]].
    destruct (rendered_sql env (trace w) o) as [s'|x] eqn:Hs;
      [|left; split; [by intros (? & _ & [=] & _) | by eexists]].
    destruct (connections w !! c') as [conn|] eqn:Hconn.
    + right. split; [exists c'; split_and!; [done | done | by exists conn]|].
      eexists (CallSQL o _), DatabaseError, _. cbn.
      split; [reflexivity|]. split; [apply extends_record|].
      split; [|done].
      split; [done|]. exists (trace w), c'. split; [done | by exists conn].
    + left. split; [|by eexists].
      intros (c'' & [= <-] & _ & (conn & Hsome)). congruence.
  - rewrite execute_presign_eq. cbn [resolvable].
    destruct (render_field env [] (trace w) ∅ b) as [b'|x] eqn:Hb;
      [|left; split; [by intros ([=] & _) | by eexists]].
    destruct (render_field env [] (trace w) ∅ k) as [k'|x] eqn:Hk;
      [|left; split; [by intros (_ & [=] & _) | by eexists]].
    destruct (module_params w !! "aws_conn_id") as [name|] eqn:Hn;
      [|left; split; [by intros (_ & _ & ? & [=] & _) | by eexists]].
    destruct (connections w !! name) as [conn|] eqn:Hconn.
    + right. split.
      { split_and!; [done | done |]. exists name. split; [done | by exists conn]. }
      cbn zeta. set (s3 := Session_client _ _ _).
      assert (Hres : call_resolved env w (PresignTask b k e)
                       (CallPresign s3 (request_of b' k' e)
                          (s3_sign env (trace w) s3 (request_of b' k' e)))).
      { split; [by exists (trace w), b', k' | by exists name, conn]. }
      destruct (s3_sign env (trace w) s3 (request_of b' k' e)) as [url|] eqn:Hsign.
      * eexists (CallPresign s3 (request_of b' k' e) (Some url)), ClientError, _.
        cbn. split; [reflexivity|]. split; [done|]. split; [done|]. done.
      * eexists (CallPresign s3 (request_of b' k' e) None), ClientError, _.
        cbn. split; [reflexivity|]. split; [done|]. split; [done|]. done.
    + left. split; [|by eexists].
      intros (_ & _ & name' & [= <-] & (conn & Hsome)). congruence.
  - rewrite execute_notify_eq. cbn [resolvable]. cbn zeta.
    destruct (connections w !! "slack_webhook_conn") as [conn|] eqn:Hconn.
    + right. split; [by exists conn|].
      eexists (CallSlack _ _), AirflowException, _. cbn.
      split; [reflexivity|]. split; [apply extends_record|].
      split; [|done].
      split; [by eexists | by exists conn].
    + left. split; [|by eexists]. by intros (conn & [=]).
Qed.

(** One try: a successful try made exactly one call, which was accepted;
    a failed try made at most one, which was rejected.  Every call was made
    through what the task resolves. *)
Lemma execute_calls t op w :
  ∃ new,
    extends w (execute env t op w).2 new
    ∧ Forall (call_resolved env w op) new
    ∧ (length new ≤ 1)%nat
    ∧ (if succeeded (execute env t op w).1
       then length new = 1%nat ∧ accepted new = new
       else accepted new = []).
Proof.
  destruct (execute_cases t op w)
    as [(_ & e & ->) | (_ & c & e & w' & -> & Hext & Hres & _)].
  - exists []. cbn. split_and!; [apply extends_refl | constructor | lia | done].
  - exists [c]. cbn. split_and!; [done | by constructor | done |].
    unfold accepted. cbn. by destruct (call_ok c).
Qed.

(** A task instance with its retries: the calls of the failed tries, all
    rejected, then, when it succeeds, the one accepted call of the last
    try. *)
Lemma run_with_retries_calls_split t op n w :
  ∃ rejected final,
    extends w (run_with_retries n (execute env t op) w).2 (rejected ++ final)
    ∧ Forall (call_resolved env w op) (rejected ++ final)
    ∧ accepted rejected = []
    ∧ (length rejected ≤ S n)%nat
    ∧ (if (run_with_retries n (execute env t op) w).1
       then length final = 1%nat ∧ accepted final = final
            ∧ (length rejected ≤ n)%nat
       else final = []).
Proof.
  revert w. induction n as [|n IH]; intros w;
    destruct (execute_calls t op w) as (new & Hext & Hres & Hlen & Hacc);
    cbn [run_with_retries];
    destruct (execute env t op w) as [[a|e] w'] eqn:Hbody; cbn in *.
  - exists [], new. cbn. destruct Hacc. split_and!; try done; lia.
  - exists new, []. rewrite app_nil_r. split_and!; try done; lia.
  - exists [], new. cbn. destruct Hacc. split_and!; try done; lia.
  - destruct (IH w') as (rej & fin & Hext' & Hres' & Hacc' & Hlen' & Hfin).
    exists (new ++ rej), fin. rewrite <- app_assoc. split_and!.
    + by eapply extends_trans.
    + apply Forall_app. split; [done|].
      eapply Forall_impl; [|exact Hres']. intros c.
      apply (call_resolved_extends _ _ _ _ _ Hext).
    + by rewrite accepted_app, Hacc, Hacc'.
    + rewrite length_app. lia.
    + destruct (run_with_retries n (execute env t op) w').1; [|done].
      destruct Hfin as (? & ? & ?). split_and!; [done..|].
      rewrite length_app. lia.
Qed.

(** The XCom store: only a successful try of the link generator writes to
    it, and what it writes is the URL its signing request returned. *)
Lemma execute_xcom t op w :
  match op, (execute env t op w).1 with
  | PresignTask b k e, Return _ =>
      ∃ cl req url,
        trace (execute env t op w).2
          = trace w ++ [CallPresign cl req (Some url)]
        ∧ xcom (execute env t op w).2 = <[task_id t := url]> (xcom w)
  | _, _ => xcom (execute env t op w).2 = xcom w
  end.
Proof.
  destruct (execute_cases t op w)
    as [(_ & e & He) | (_ & c & e & w' & He & (_ & _ & Ht) & Hres & Hx & _)].
  - destruct op; rewrite He; cbn; done.
  - destruct op as [o | b k x | src], c as [o' ok | cl r res | o' ok];
      cbn in Hres; try done; rewrite He; cbn.
    + by destruct ok.
    + destruct res as [url|]; cbn; [|done]. by exists cl, r, url.
    + by destruct ok.
Qed.

Lemma run_with_retries_xcom_keep t op n w :
  (∀ b k e, op ≠ PresignTask b k e) →
  xcom (run_with_retries n (execute env t op) w).2 = xcom w.
Proof.
  intros Hop. revert w. induction n as [|n IH]; intros w;
    pose proof (execute_xcom t op w) as Hx;
    cbn [run_with_retries];
    destruct (execute env t op w) as [[a|e] w'] eqn:Hbody; cbn in *;
    try (destruct op; [done | by destruct (Hop _ _ _ eq_refl) | done]).
  rewrite IH. destruct op; [done | by destruct (Hop _ _ _ eq_refl) | done].
Qed.

Lemma run_with_retries_xcom_presign t b k e n w :
  if (run_with_retries n (execute env t (PresignTask b k e)) w).1
  then ∃ cl req url before,
         trace (run_with_retries n (execute env t (PresignTask b k e)) w).2
           = trace w ++ before ++ [CallPresign cl req (Some url)]
         ∧ xcom (run_with_retries n (execute env t (PresignTask b k e)) w).2
           = <[task_id t := url]> (xcom w)
  else xcom (run_with_retries n (execute env t (PresignTask b k e)) w).2 = xcom w.
Proof.
  revert w. induction n as [|n IH]; intros w;
    pose proof (execute_xcom t (PresignTask b k e) w) as Hx;
    destruct (execute_calls t (PresignTask b k e) w) as (new & (_ & _ & Ht) & _);
    cbn [run_with_retries];
    destruct (execute env t (PresignTask b k e) w) as [[a|err] w'] eqn:Hbody;
    cbn in *; rewrite ?Hbody in Hx; cbn in Hx.
  - destruct Hx as (cl & req & url & Htr & Hxc).
    exists cl, req, url, []. by rewrite Htr.
  - done.
  - destruct Hx as (cl & req & url & Htr & Hxc).
    exists cl, req, url, []. by rewrite Htr.
  - specialize (IH w').
    destruct (run_with_retries n _ w').1; [|by rewrite IH].
    destruct IH as (cl & req & url & before & Htr & Hxc).
    exists cl, req, url, (new ++ before). rewrite Htr, Ht, Hxc, Hx.
    by rewrite <- !app_assoc.
Qed.

(** Every call of a notifier task instance carries the message built from
    what the XCom store held for the upstream task when the task instance
    began. *)
Lemma run_with_retries_notify t src n w :
  ∃ new,
    trace (run_with_retries n (execute env t (NotifyTask src)) w).2
      = trace w ++ new
    ∧ Forall (λ c, ∃ ok,
                c = CallSlack
                      (notify_slack_operator (str_of (xcom w !! task_id src)))
                      ok) new.
Proof.
  revert w. induction n as [|n IH]; intros w;
    pose proof (execute_xcom t (NotifyTask src) w) as Hx;
    cbn [run_with_retries];
    (assert (Htry : ∃ new,
       trace (execute env t (NotifyTask src) w).2 = trace w ++ new
       ∧ Forall (λ c, ∃ ok,
                   c = CallSlack
                         (notify_slack_operator (str_of (xcom w !! task_id src)))
                         ok) new);
     [ destruct (execute_cases t (NotifyTask src) w)
         as [(_ & e & ->)
            | (_ & c & e & w' & -> & (_ & _ & Ht) & Hres & _ & Hmsg)];
       [ exists []; cbn; split; [by rewrite app_nil_r | constructor]
       | exists [c]; cbn; split; [done|];
         destruct c as [| |o ok]; try done;
         constructor; [exists ok; by rewrite Hmsg | constructor] ]
     | ]);
    destruct Htry as (new & Ht & Hall);
    destruct (execute env t (NotifyTask src) w) as [[a|e] w'] eqn:Hbody;
    cbn in *; try (by exists new).
  destruct (IH w') as (new' & Ht' & Hall'). rewrite Hx in Hall'.
  exists (new ++ new'). rewrite Ht', Ht, app_assoc. split; [done|].
  by apply Forall_app.
Qed.

(** A task that does not resolve what it needs fails, retries and all,
    without a call and without a change to the world. *)
Lemma unresolvable_fails t op n w :
  ¬ resolvable env (trace w) w op →
  run_with_retries n (execute env t op) w = (false, w).
Proof.
  intros Hno.
  destruct (execute_cases t op w) as [(_ & e & Htry) | (Hres & _)]; [|done].
  induction n as [|n IH]; cbn [run_with_retries]; by rewrite Htry.
Qed.

(** A task that always resolves what it needs reaches its service at every
    try: it fails only after [n + 1] rejected calls, and succeeds with the
    first accepted one. *)
Lemma resolvable_tries t op n w :
  (∀ tr, resolvable env tr w op) →
  ∃ rejected final,
    trace (run_with_retries n (execute env t op) w).2
      = trace w ++ rejected ++ final
    ∧ Forall (λ c, call_ok c = false) rejected
    ∧ (if (run_with_retries n (execute env t op) w).1
       then (∃ c, final = [c] ∧ call_ok c = true) ∧ (length rejected ≤ n)%nat
       else final = [] ∧ length rejected = S n).
Proof.
  revert w. induction n as [|n IH]; intros w Hres;
    (destruct (execute_cases t op w)
       as [(Hno & _) | (_ & c & e & w' & Hbody & Hext & _)];
     [by destruct (Hno (Hres _)) | ]);
    cbn [run_with_retries]; rewrite Hbody;
    destruct (call_ok c) eqn:Hok; cbn;
    pose proof Hext as (_ & _ & Ht).
  - exists [], [c]. split; [done|]. split; [constructor|].
    split; [by exists c | done].
  - exists [c], []. rewrite app_nil_r. split; [done|]. split; [by constructor | done].
  - exists [], [c]. split; [done|]. split; [constructor|].
    split; [by exists c | cbn; lia].
  - destruct (IH w') as (rej & fin & Ht' & Hrej & Hfin).
    { intros tr. by eapply resolvable_extends. }
    exists (c :: rej), fin. rewrite Ht', Ht, <- app_assoc. cbn.
    split; [done|]. split; [by constructor |].
    destruct (run_with_retries n (execute env t op) w').1.
    + destruct Hfin as (? & ?). split; [done | lia].
    + by destruct Hfin as (-> & ->).
Qed.

Lemma resolvable_extends_inv tr w w' new op :
  extends w w' new → resolvable env tr w' op → resolvable env tr w op.
Proof.
  intros (Hp & Hc & _). destruct op; cbn; by rewrite ?Hp, ?Hc.
Qed.

Lemma resolved_at_app w op base n1 n2 :
  resolved_at env w op base n1 →
  resolved_at env w op (base ++ n1) n2 →
  resolved_at env w op base (n1 ++ n2).
Proof.
  intros H1 H2 i c Hi.
  destruct (decide (i < length n1)%nat) as [Hlt|Hge].
  - rewrite lookup_app_l in Hi by done.
    rewrite take_app_le by lia. by apply H1.
  - rewrite lookup_app_r in Hi by lia.
    rewrite take_app_ge by lia. rewrite app_assoc. by apply H2.
Qed.

(** Every call of a try was made once the task had resolved what it needs,
    after the calls made until then. *)
Lemma execute_resolved_at t op w :
  ∃ new, extends w (execute env t op w).2 new
         ∧ resolved_at env w op (trace w) new.
Proof.
  destruct (execute_cases t op w)
    as [(_ & e & ->) | (Hres & c & e & w' & -> & Hext & Hcall & _)].
  - exists []. split; [apply extends_refl|]. by intros i c [=].
  - exists [c]. split; [done|]. intros [|i] c' [=]; subst c'.
    cbn. rewrite app_nil_r. split; [by eapply call_resolved_call_of | done].
Qed.

Lemma run_with_retries_resolved_at t op n w :
  ∃ new, extends w (run_with_retries n (execute env t op) w).2 new
         ∧ resolved_at env w op (trace w) new.
Proof.
  revert w. induction n as [|n IH]; intros w;
    destruct (execute_resolved_at t op w) as (new & Hext & Hres);
    cbn [run_with_retries];
    destruct (execute env t op w) as [[a|e] w'] eqn:Hbody; cbn in *;
    try (by exists new).
  destruct (IH w') as (new' & Hext' & Hres').
  exists (new ++ new'). split; [by eapply extends_trans|].
  apply resolved_at_app; [done|].
  destruct Hext as (Hp & Hc & Ht). rewrite <- Ht.
  intros i c Hi. destruct (Hres' i c Hi) as (? & Hr). split; [done|].
  eapply resolvable_extends_inv; [|exact Hr]. by split.
Qed.

(** The tries of a task instance: one, and one more for each retry that is
    used. *)
Lemma tries_made_bounds n (body : M unit) w :
  (1 ≤ tries_made n body w ≤ S n)%nat.
Proof.
  revert w. induction n as [|n IH]; intros w; cbn [tries_made];
    destruct (body w) as [[a|e] w']; try lia.
  specialize (IH w'). lia.
Qed.

End Tries.

(** ** What a run of the workflow has called *)

Section Run_accounting.

Context (env : Services) (P : Params) (d : DAG).
Hypothesis Hd : account_monthly_balance_generation P = Return d.

Lemma extends_new w0 w new new' :
  extends w0 w new → trace w = trace w0 ++ new' → new' = new.
Proof. intros (_ & _ & Ht) Ht'. rewrite Ht in Ht'. by apply app_inv_head in Ht'. Qed.

Lemma succeeded_tasks_keep r x s ord w :
  ti r x ≠ Success → s ≠ Success →
  succeeded_tasks {| ti := <[x:=s]> (ti r); order := ord; world := w |}
  = succeeded_tasks r.
Proof.
  intros Hx Hs. unfold succeeded_tasks. cbn [ti]. apply filter_ext. intros t.
  destruct (decide (x = t)) as [->|];
    [rewrite fn_lookup_insert | by rewrite fn_lookup_insert_ne].
  by rewrite !bool_decide_false.
Qed.

(** The successes of a run are a prefix of the chain: a task instance that
    succeeds goes to the end of the list. *)
Lemma succeeded_tasks_finish w0 r x ord w :
  reachable env d (new_run w0) r →
  ti r x = Running →
  succeeded_tasks {| ti := <[x:=Success]> (ti r); order := ord; world := w |}
  = succeeded_tasks r ++ [x].
Proof.
  intros Hreach Hrun.
  assert (Hup : ∀ u, before u x → ti r u = Success).
  { intros u Hu. apply (chain_success env P d Hd w0 r u x Hreach Hu).
    by rewrite Hrun. }
  assert (Hdown : ∀ v, before x v → ti r v ≠ Success).
  { intros v Hv Hs.
    pose proof (chain_success env P d Hd w0 r x v Hreach Hv) as H.
    rewrite Hs, Hrun in H. by specialize (H eq_refl). }
  unfold succeeded_tasks. cbn [List.filter all_tasks ti].
  destruct x;
    repeat first [rewrite fn_lookup_insert
                 | rewrite fn_lookup_insert_ne by done];
    repeat match goal with
           | |- context [bool_decide (ti r ?v = Success)] =>
               first
                 [ rewrite (bool_decide_true (ti r v = Success))
                     by (apply Hup; solve_before)
                 | rewrite (bool_decide_false (ti r v = Success))
                     by first [apply Hdown; solve_before | by rewrite Hrun] ]
           end;
    reflexivity.
Qed.

(** The accepted calls of a run, in the order they were made, are one call
    of each successful task instance, in the order of the chain; and every
    call, accepted or not, went through what its task resolved in the world
    the run began in. *)
Lemma reachable_accepted w0 r :
  reachable env d (new_run w0) r →
  ∃ new,
    extends w0 (world r) new
    ∧ Forall (λ c, ∃ t, resolved_by env w0 d t c) new
    ∧ Forall2 (resolved_by env w0 d) (succeeded_tasks r) (accepted new).
Proof.
  induction 1 as [|r r' Hreach (new & Hext & Hres & Hacc) Hstep].
  { exists []. split; [apply extends_refl|]. split; constructor. }
  destruct Hstep as [r a Hen].
  destruct a as [x|x|x]; cbn [enabled perform world] in *.
  - apply andb_prop in Hen as [H _]. apply bool_decide_eq_true in H.
    exists new. split; [done|]. split; [done|].
    rewrite succeeded_tasks_keep; [done | congruence | done].
  - apply bool_decide_eq_true in Hen.
    destruct (run_with_retries_calls_split env x (operator (tasks d x))
                (task_retries d x) (world r))
      as (rej & fin & Hext' & Hres' & Hrej & _ & Hfin).
    fold (run_task_instance env d x (world r)) in Hext', Hfin.
    assert (Hres0 : Forall (resolved_by env w0 d x) (rej ++ fin)).
    { eapply Forall_impl; [|exact Hres']. intros c.
      apply (call_resolved_extends _ _ _ _ _ _ Hext). }
    exists (new ++ rej ++ fin). split; [by eapply extends_trans|]. split.
    + apply Forall_app. split; [done|].
      eapply Forall_impl; [|exact Hres0]. intros c Hc. by exists x.
    + rewrite !accepted_app, Hrej. cbn [app].
      destruct (run_task_instance env d x (world r)).1.
      * destruct Hfin as (Hlen & Hok & _). rewrite Hok.
        erewrite succeeded_tasks_finish; [|done..].
        apply Forall2_app; [done|].
        destruct fin as [|c [|]]; try done.
        constructor; [|constructor].
        apply Forall_app in Hres0 as [_ Hof]. by inversion Hof.
      * rewrite Hfin. cbn [accepted List.filter]. rewrite app_nil_r. cbv iota.
        rewrite succeeded_tasks_keep; [done | congruence | done].
  - apply andb_prop in Hen as [H _]. apply bool_decide_eq_true in H.
    exists new. split; [done|]. split; [done|].
    rewrite succeeded_tasks_keep; [done | congruence | done].
Qed.

(** The XCom store of a run holds nothing for the link generator until the
    link generator has succeeded; from then on it holds the URL a signing
    request of the run returned.  Every call to the webhook carries such a
    URL. *)
Lemma reachable_url w0 r :
  reachable env d (new_run w0) r →
  ∃ new,
    extends w0 (world r) new
    ∧ (ti r T_generate_presigned_url = Success →
       ∃ cl req url,
         CallPresign cl req (Some url) ∈ new
         ∧ xcom (world r) !! task_id T_generate_presigned_url = Some url)
    ∧ (∀ op ok, CallSlack op ok ∈ new →
       ∃ cl req url,
         CallPresign cl req (Some url) ∈ new
         ∧ op = notify_slack_operator url).
Proof.
  induction 1 as [|r r' Hreach (new & Hext & Hx & Hs) Hstep].
  { exists []. split; [apply extends_refl|]. split; [done|].
    intros op ok Hin. by apply elem_of_nil in Hin. }
  destruct (dag_shape P d Hd)
    as (sp & c0 & b0 & p0 & f0 & _ & _ & _ & _ & _ & _ & _ & _ & _
        & H1 & H2 & H3 & H4).
  destruct Hstep as [r a Hen].
  destruct a as [x|x|x]; cbn [enabled perform world ti] in *.
  - apply andb_prop in Hen as [H _]. apply bool_decide_eq_true in H.
    exists new. split; [done|]. split; [|done].
    intros Hg. apply Hx.
    destruct (decide (x = T_generate_presigned_url)) as [->|];
      [by rewrite fn_lookup_insert in Hg | by rewrite fn_lookup_insert_ne in Hg].
  - apply bool_decide_eq_true in Hen.
    destruct (run_with_retries_calls_split env x (operator (tasks d x))
                (task_retries d x) (world r))
      as (rej & fin & Hext' & Hof & _).
    fold (run_task_instance env d x (world r)) in Hext'.
    pose proof (extends_trans _ _ _ _ _ Hext Hext') as Hext''.
    exists (new ++ rej ++ fin). split; [done|].
    assert (Hold : ∀ c, c ∈ new → c ∈ new ++ rej ++ fin).
    { intros c Hc. apply elem_of_app. by left. }
    destruct x.
    + (* create_table_snowflake *)
      rewrite H1 in Hof.
      pose proof (run_with_retries_xcom_keep env T_create_table_snowflake
                    (operator (tasks d T_create_table_snowflake))
                    (task_retries d T_create_table_snowflake) (world r)) as Hk.
      rewrite H1 in Hk. specialize (Hk ltac:(done)).
      unfold run_task_instance. rewrite H1. split.
      * rewrite fn_lookup_insert_ne by done. intros Hg.
        destruct (Hx Hg) as (cl & req & url & Hin & Hu).
        exists cl, req, url. split; [by apply Hold|]. by rewrite Hk.
      * intros op ok Hin. apply elem_of_app in Hin as [Hin|Hin].
        -- destruct (Hs _ _ Hin) as (cl & req & url & Hin' & ->).
           exists cl, req, url. split; [by apply Hold | done].
        -- rewrite Forall_forall in Hof. apply list_elem_of_In in Hin.
           by destruct (Hof _ Hin).
    + (* load_to_s3 *)
      rewrite H2 in Hof.
      pose proof (run_with_retries_xcom_keep env T_load_to_s3
                    (operator (tasks d T_load_to_s3))
                    (task_retries d T_load_to_s3) (world r)) as Hk.
      rewrite H2 in Hk. specialize (Hk ltac:(done)).
      unfold run_task_instance. rewrite H2. split.
      * rewrite fn_lookup_insert_ne by done. intros Hg.
        destruct (Hx Hg) as (cl & req & url & Hin & Hu).
        exists cl, req, url. split; [by apply Hold|]. by rewrite Hk.
      * intros op ok Hin. apply elem_of_app in Hin as [Hin|Hin].
        -- destruct (Hs _ _ Hin) as (cl & req & url & Hin' & ->).
           exists cl, req, url. split; [by apply Hold | done].
        -- rewrite Forall_forall in Hof. apply list_elem_of_In in Hin.
           by destruct (Hof _ Hin).
    + (* generate_presigned_url *)
      rewrite H3 in Hof.
      pose proof (run_with_retries_xcom_presign env T_generate_presigned_url
                    b0 (p0 +:+ "/" +:+ f0) 604800
                    (task_retries d T_generate_presigned_url) (world r)) as Hp.
      unfold run_task_instance in *. rewrite H3 in *. split.
      * rewrite fn_lookup_insert. intros Hg.
        destruct (run_with_retries _ _ (world r)).1; [|done].
        destruct Hp as (cl & req & url & before & Htr & Hxc).
        exists cl, req, url. split.
        -- destruct Hext' as (_ & _ & Ht'). rewrite Ht' in Htr.
           apply app_inv_head in Htr. rewrite Htr.
           apply elem_of_app. right. apply elem_of_app. right. by left.
        -- rewrite Hxc. apply lookup_insert_eq.
      * intros op ok Hin. apply elem_of_app in Hin as [Hin|Hin].
        -- destruct (Hs _ _ Hin) as (cl & req & url & Hin' & ->).
           exists cl, req, url. split; [by apply Hold | done].
        -- rewrite Forall_forall in Hof. apply list_elem_of_In in Hin.
           by destruct (Hof _ Hin).
    + (* notify_slack *)
      pose proof (run_with_retries_xcom_keep env T_notify_slack
                    (operator (tasks d T_notify_slack))
                    (task_retries d T_notify_slack) (world r)) as Hk.
      rewrite H4 in Hk. specialize (Hk ltac:(done)).
      destruct (run_with_retries_notify env T_notify_slack
                  T_generate_presigned_url
                  (task_retries d T_notify_slack) (world r))
        as (new' & Ht' & Hall).
      unfold run_task_instance in *. rewrite H4 in *.
      assert (Hg : ti r T_generate_presigned_url = Success).
      { apply (chain_success env P d Hd w0 r _ T_notify_slack Hreach);
          [solve_before | by rewrite Hen]. }
      destruct (Hx Hg) as (cl & req & url & Hin & Hu).
      rewrite Hu in Hall. cbn [str_of default] in Hall.
      split.
      * rewrite fn_lookup_insert_ne by done. intros _.
        exists cl, req, url. split; [by apply Hold|]. by rewrite Hk.
      * intros op ok Hin'. apply elem_of_app in Hin' as [Hin'|Hin'].
        -- destruct (Hs _ _ Hin') as (cl' & req' & url' & Hin'' & ->).
           exists cl', req', url'. split; [by apply Hold | done].
        -- destruct Hext' as (_ & _ & Ht''). rewrite Ht'' in Ht'.
           apply app_inv_head in Ht'. rewrite Ht' in Hin'.
           rewrite Forall_forall in Hall. apply list_elem_of_In in Hin'.
           destruct (Hall _ Hin') as (ok' & [= -> ->]).
           exists cl, req, url. split; [by apply Hold|]. done.
  - apply andb_prop in Hen as [H _]. apply bool_decide_eq_true in H.
    exists new. split; [done|]. split; [|done].
    intros Hg. apply Hx.
    destruct (decide (x = T_generate_presigned_url)) as [->|];
      [by rewrite fn_lookup_insert in Hg | by rewrite fn_lookup_insert_ne in Hg].
Qed.

(** Every call of a run is the call of a task of the DAG, made when the
    task resolved what it needs in the world the run began in, after the
    calls made until then. *)
Lemma reachable_resolved_at w0 r :
  reachable env d (new_run w0) r →
  ∃ new,
    extends w0 (world r) new
    ∧ ∀ i c, new !! i = Some c →
        ∃ t, call_of (operator (tasks d t)) c
             ∧ resolvable env (trace w0 ++ take i new) w0 (operator (tasks d t)).
Proof.
  induction 1 as [|r r' Hreach (new & Hext & Hres) Hstep].
  { exists []. split; [apply extends_refl|]. by intros i c [=]. }
  destruct Hstep as [r a Hen].
  destruct a as [x|x|x]; cbn [enabled perform world] in *;
    try (by exists new).
  destruct (run_with_retries_resolved_at env x (operator (tasks d x))
              (task_retries d x) (world r)) as (new' & Hext' & Hres').
  fold (run_task_instance env d x (world r)) in Hext'.
  exists (new ++ new'). split; [by eapply extends_trans|].
  intros i c Hi.
  destruct (decide (i < length new)%nat) as [Hlt|Hge].
  - rewrite lookup_app_l in Hi by done.
    rewrite take_app_le by lia. by apply Hres.
  - rewrite lookup_app_r in Hi by lia.
    rewrite take_app_ge by lia.
    destruct (Hres' _ _ Hi) as (Hcall & Hr). exists x. split; [done|].
    destruct Hext as (Hp & Hc & Ht). rewrite Ht, <- app_assoc in Hr.
    eapply resolvable_extends_inv; [|exact Hr]. by split.
Qed.

End Run_accounting.

(** ** Consequences for a run of the workflow *)

Section Run_consequences.

Context (env : Services) (P : Params) (d : DAG).
Hypothesis Hd : account_monthly_balance_generation P = Return d.

Lemma accepted_elem c tr : c ∈ accepted tr ↔ c ∈ tr ∧ call_ok c = true.
Proof. unfold accepted. rewrite !list_elem_of_In. apply filter_In. Qed.

Lemma accepted_all_ok tr : Forall (λ c, call_ok c = true) (accepted tr).
Proof. apply Forall_forall. intros c Hc. by apply filter_In in Hc as (_ & ?). Qed.

Lemma succeeded_tasks_all w0 r :
  reachable env d (new_run w0) r →
  ti r T_notify_slack = Success → succeeded_tasks r = all_tasks.
Proof.
  intros Hreach Hs.
  assert (Hall : ∀ u, before u T_notify_slack → ti r u = Success).
  { intros u Hu. apply (chain_success env P d Hd w0 r u T_notify_slack Hreach Hu).
    by rewrite Hs. }
  unfold succeeded_tasks. cbn [List.filter all_tasks].
  rewrite Hs, !Hall by solve_before. by rewrite !bool_decide_true.
Qed.

Lemma succeeded_tasks_but_notifier w0 r :
  reachable env d (new_run w0) r →
  ti r T_notify_slack = Failed →
  succeeded_tasks r =
    [T_create_table_snowflake; T_load_to_s3; T_generate_presigned_url].
Proof.
  intros Hreach Hf.
  assert (Hall : ∀ u, before u T_notify_slack → ti r u = Success).
  { intros u Hu. apply (chain_success env P d Hd w0 r u T_notify_slack Hreach Hu).
    by rewrite Hf. }
  unfold succeeded_tasks. cbn [List.filter all_tasks].
  rewrite Hf, !Hall by solve_before.
  rewrite !bool_decide_true by done. by rewrite bool_decide_false.
Qed.

Lemma resolved_by_owned_by w t c : resolved_by env w d t c → owned_by d t c.
Proof. apply call_resolved_call_of. Qed.

(** The accepted calls of the three tasks before the notifier, once they
    have all succeeded. *)
Lemma accepted_first_three w0 r new tasks_rest :
  reachable env d (new_run w0) r →
  trace (world r) = trace w0 ++ new →
  succeeded_tasks r =
    T_create_table_snowflake :: T_load_to_s3 :: T_generate_presigned_url
      :: tasks_rest →
  ∃ o1 o2 b k cl req url rest,
    operator (tasks d T_create_table_snowflake) = SQLTask o1
    ∧ operator (tasks d T_load_to_s3) = SQLTask o2
    ∧ operator (tasks d T_generate_presigned_url) = PresignTask b k 604800
    ∧ accepted new =
        CallSQL o1 true :: CallSQL o2 true
          :: CallPresign cl req (Some url) :: rest
    ∧ call_resolved env w0 (SQLTask o1) (CallSQL o1 true)
    ∧ call_resolved env w0 (SQLTask o2) (CallSQL o2 true)
    ∧ call_resolved env w0 (PresignTask b k 604800)
        (CallPresign cl req (Some url))
    ∧ Forall2 (resolved_by env w0 d) tasks_rest rest.
Proof.
  intros Hreach Htrace Hsucc.
  destruct (reachable_accepted env P d Hd w0 r Hreach) as (new' & Hext & _ & Hacc).
  rewrite (extends_new _ _ _ _ Hext Htrace) in *. clear Htrace.
  rewrite Hsucc in Hacc.
  apply Forall2_cons_inv_l in Hacc as (c1 & l1 & Ho1 & Hacc & Heq1).
  apply Forall2_cons_inv_l in Hacc as (c2 & l2 & Ho2 & Hacc & ->).
  apply Forall2_cons_inv_l in Hacc as (c3 & l3 & Ho3 & Hacc & ->).
  pose proof (accepted_all_ok new') as Hok. rewrite Heq1 in Hok.
  apply Forall_cons_1 in Hok as [Hk1 Hok].
  apply Forall_cons_1 in Hok as [Hk2 Hok].
  apply Forall_cons_1 in Hok as [Hk3 _].
  destruct (dag_shape P d Hd)
    as (sp & c0 & b0 & p0 & f0 & _ & _ & _ & _ & _ & _ & _ & _ & _
        & H1 & H2 & H3 & _).
  unfold resolved_by in Ho1, Ho2, Ho3. rewrite H1 in Ho1. rewrite H2 in Ho2.
  rewrite H3 in Ho3.
  destruct c1 as [o1 ok1| |]; try done. pose proof Ho1 as (Ho1' & _). subst o1.
  destruct c2 as [o2 ok2| |]; try done. pose proof Ho2 as (Ho2' & _). subst o2.
  destruct c3 as [|cl req res|]; try done.
  cbn in Hk1, Hk2, Hk3. subst ok1 ok2.
  destruct res as [url|]; [|done].
  eexists _, _, b0, (p0 +:+ "/" +:+ f0), cl, req, url, l3.
  split; [exact H1|]. split; [exact H2|]. split; [exact H3|].
  split; [exact Heq1|]. done.
Qed.

Lemma execute_retries_frame x w :
  ∃ added,
    extends w (run_task_instance env d x w).2 added
    ∧ Forall (owned_by d x) added.
Proof.
  destruct (run_with_retries_spec env x (operator (tasks d x))
              (task_retries d x) w) as (added & Hext & Hof & _).
  by exists added.
Qed.

(** In the trace of a run, the calls come in the order of the chain. *)
Lemma reachable_call_order w0 r :
  reachable env d (new_run w0) r →
  ∃ new,
    extends w0 (world r) new
    ∧ ∀ i j c1 c2 t1 t2,
        (i < j)%nat → new !! i = Some c1 → new !! j = Some c2 →
        owned_by d t1 c1 → owned_by d t2 c2 →
        (position t1 ≤ position t2)%nat.
Proof.
  induction 1 as [|r r' Hreach (new & Hext & Hord) Hstep].
  { exists []. split; [apply extends_refl|]. by intros i j c1 c2 t1 t2 _ [=]. }
  destruct Hstep as [r a Hen].
  destruct a as [x|x|x]; cbn [enabled perform world] in *;
    try (by exists new).
  apply bool_decide_eq_true in Hen.
  destruct (execute_retries_frame x (world r)) as (added & Hext' & Hof).
  exists (new ++ added). split; [by eapply extends_trans|].
  destruct (reachable_world env d w0 r Hreach) as (new0 & Hext0 & Hcalls & _).
  assert (new = new0) as <-.
  { destruct Hext as (_ & _ & Ht). by apply (extends_new _ _ _ _ Hext0). }
  assert (Hx : ∀ j c t, added !! j = Some c → owned_by d t c → t = x).
  { intros j c t Hj Ht. rewrite Forall_forall in Hof.
    apply list_elem_of_lookup_2, list_elem_of_In in Hj.
    exact (call_of_task_unique P d Hd _ _ _ Ht (Hof _ Hj)). }
  assert (Hold : ∀ i c t, new !! i = Some c → owned_by d t c →
                          (position t ≤ position x)%nat).
  { intros i c t Hi Ht. rewrite Forall_forall in Hcalls.
    apply list_elem_of_lookup_2, list_elem_of_In in Hi.
    destruct (Hcalls _ Hi) as (t' & Hex & Ht').
    rewrite (call_of_task_unique P d Hd _ _ _ Ht Ht').
    destruct (decide (position t' ≤ position x)%nat) as [|Hgt]; [done|].
    assert (Hb : before x t') by (unfold before; lia).
    pose proof (chain_success env P d Hd w0 r x t' Hreach Hb) as Hs.
    rewrite Hen in Hs. destruct (ti r t'); try done; by specialize (Hs eq_refl). }
  intros i j c1 c2 t1 t2 Hij Hi Hj Ht1 Ht2.
  destruct (decide (j < length new)%nat) as [Hjn|Hjn].
  - rewrite lookup_app_l in Hi, Hj by lia. eauto.
  - rewrite (lookup_app_r new) in Hj by lia.
    rewrite (Hx _ _ _ Hj Ht2).
    destruct (decide (i < length new)%nat) as [Hin|Hin].
    + rewrite lookup_app_l in Hi by lia. eauto.
    + rewrite (lookup_app_r new) in Hi by lia.
      by rewrite (Hx _ _ _ Hi Ht1).
Qed.

(** A string without markup renders to itself, so a request built from
    two such strings is the request for them. *)
Lemma rendered_request_plain tr b k e req :
  renders_plain env → plain b = true → plain k = true →
  rendered_request env tr b k e req → req = request_of b k e.
Proof.
  intros Hplain Hb Hk (b' & k' & Hb' & Hk' & ->).
  unfold render_field in Hb', Hk'. cbn [existsb] in Hb', Hk'.
  rewrite Hplain in Hb', Hk' by done.
  injection Hb' as <-. by injection Hk' as <-.
Qed.

(** Every signing request in the trace of a run is one the link generator
    made, from what it resolved in the world the run began in. *)
Lemma run_signing_request w0 r new cl req res :
  reachable env d (new_run w0) r →
  trace (world r) = trace w0 ++ new →
  CallPresign cl req res ∈ new →
  resolved_by env w0 d T_generate_presigned_url (CallPresign cl req res).
Proof.
  intros Hreach Htrace Hin.
  destruct (reachable_accepted env P d Hd w0 r Hreach) as (new' & Hext & Hres & _).
  rewrite <- (extends_new _ _ _ _ Hext Htrace) in Hres.
  rewrite Forall_forall in Hres. apply list_elem_of_In in Hin.
  destruct (Hres _ Hin) as (t & Ht).
  destruct (dag_shape P d Hd)
    as (sp & c0 & b0 & p0 & f0 & _ & _ & _ & _ & _ & _ & _ & _ & _
        & H1 & H2 & _ & H4).
  unfold resolved_by in *.
  destruct t; rewrite ?H1, ?H2, ?H4 in Ht; done.
Qed.

(** A run whose link generator succeeded holds an accepted signing
    request, and the XCom store holds the URL it returned. *)
Lemma run_signed_url w0 r new :
  reachable env d (new_run w0) r →
  trace (world r) = trace w0 ++ new →
  ti r T_generate_presigned_url = Success →
  ∃ cl req url,
    CallPresign cl req (Some url) ∈ new
    ∧ xcom (world r) !! "generate_presigned_url" = Some url.
Proof.
  intros Hreach Htrace Hs.
  destruct (reachable_url env P d Hd w0 r Hreach) as (new' & Hext & Hx & _).
  rewrite (extends_new _ _ _ _ Hext Htrace).
  exact (Hx Hs).
Qed.

End Run_consequences.

(** Entries of the reference configuration that do not depend on the
    directory. *)
Lemma reference_lookups dir k v :
  (list_to_map
     [ ("snowflake_conn_id", "snowflake_conn_id");
       ("aws_conn_id", "aws_conn_id");
       ("path", "output_files");
       ("bucket_s3", "terraform-nu-db-pg-48baa6b7");
       ("filename", "account_monthly_balance.csv") ] : Params) !! k = Some v →
  PARAMS_DEFINITION dir !! k = Some v.
Proof.
  intros Hkv. apply elem_of_list_to_map_2 in Hkv.
  repeat (apply elem_of_cons in Hkv as [Hkv|Hkv];
          [injection Hkv as -> ->; by vm_compute|]).
  by apply elem_of_nil in Hkv.
Qed.

(** ** The sample deployments run as expected *)

Example sample_dag_defined :
  account_monthly_balance_generation (PARAMS_DEFINITION sample_dir) = Return sample_dag.
Proof. vm_compute. reflexivity. Qed.

Example chain_schedule_run :
  follow obliging sample_dag (new_run (sample_world None)) chain_schedule
  = Some (run obliging sample_dag (sample_world None)).
Proof. vm_compute. reflexivity. Qed.

Example halted_schedule_run :
  follow load_rejected sample_dag (new_run (sample_world None)) halted_schedule
  = Some (run load_rejected sample_dag (sample_world None)).
Proof. vm_compute. reflexivity. Qed.

Example run_workflow_sample :
  run_workflow obliging (sample_world None)
  = Return (run obliging sample_dag (sample_world None)).
Proof. vm_compute. reflexivity. Qed.

Example load_rejected_calls :
  length (trace (world (run load_rejected sample_dag (sample_world None)))) = 5%nat.
Proof. vm_compute. reflexivity. Qed.

Example halted_states :
  states (run load_rejected sample_dag (sample_world None))
  = [Success; Failed; UpstreamFailed; UpstreamFailed].
Proof. vm_compute. reflexivity. Qed.

(** * The claims *)

(** C1. In every run, under any schedule the engine may follow, the task
    instances are started in the order create_table_snowflake, load_to_s3,
    generate_presigned_url, notify_slack; a task instance is started only
    once every task before it in the chain has succeeded (so load_to_s3
    only after create_table_snowflake reported success); no two task
    instances are running at the same time; and a successful run has
    started all four, in that order. *)
Theorem C1_steps_run_in_chain_order env P d w acts r :
  account_monthly_balance_generation P = Return d →
  follow env d (new_run w) acts = Some r →
  (∃ k, order r = take k [T_create_table_snowflake; T_load_to_s3;
                          T_generate_presigned_url; T_notify_slack])
  ∧ (∀ u t, before u t → started (ti r t) = true → ti r u = Success)
  ∧ (started (ti r T_load_to_s3) = true →
     ti r T_create_table_snowflake = Success)
  ∧ (∀ t u, ti r t = Running → ti r u = Running → t = u)
  ∧ (dagrun_state d r = RunSuccess →
     order r = [T_create_table_snowflake; T_load_to_s3;
                T_generate_presigned_url; T_notify_slack]).
Proof.
  intros Hd Hfollow. apply follow_new_run in Hfollow as Hreach.
  split_and!.
  - by eapply order_prefix.
  - intros u t. by eapply chain_success.
  - eapply chain_success; eauto. unfold before. cbn. lia.
  - intros t u. by eapply running_unique.
  - unfold dagrun_state. rewrite (leaves_eq P d Hd).
    destruct (forallb _ all_tasks); [|done]. cbn [forallb].
    destruct (bool_decide (ti r T_notify_slack = Success)) eqn:Hs; [|done].
    intros _. apply bool_decide_eq_true in Hs. by eapply success_order.
Qed.

Lemma C1_witness :
  (∃ k, order (run obliging sample_dag (sample_world None)) =
        take k [T_create_table_snowflake; T_load_to_s3;
                T_generate_presigned_url; T_notify_slack])
  ∧ order (run obliging sample_dag (sample_world None)) =
      [T_create_table_snowflake; T_load_to_s3;
       T_generate_presigned_url; T_notify_slack].
Proof.
  destruct (C1_steps_run_in_chain_order obliging (PARAMS_DEFINITION sample_dir)
              sample_dag (sample_world None) chain_schedule
              (run obliging sample_dag (sample_world None)))
    as (Hprefix & _ & _ & _ & Hall).
  - vm_compute. reflexivity.
  - vm_compute. reflexivity.
  - split; [exact Hprefix|]. apply Hall. vm_compute. reflexivity.
Defined.

(** C2. When a task instance fails, no task after it in the chain is ever
    started, under any schedule, and no call of such a task reaches an
    external service; the run ends failed, with the task instances below
    the failure marked as not run.  In particular, when the registry has
    no connection under the name the warehouse connection identifier
    renders to, the first SQL step fails, the loader, the link generator and
    the notifier are not run, and the run is failed; so it is under the
    reference configuration when the registry has no snowflake_conn_id. *)
Theorem C2_failure_halts_the_chain env P d w :
  account_monthly_balance_generation P = Return d →
  (∀ acts r t u,
     follow env d (new_run w) acts = Some r →
     ti r t = Failed → before t u →
     started (ti r u) = false
     ∧ ∀ new c, trace (world r) = trace w ++ new → c ∈ new →
                ¬ call_of (operator (tasks d u)) c)
  ∧ (∀ acts r t,
       follow env d (new_run w) acts = Some r →
       ti r t = Failed → dagrun_state d r ≠ RunSuccess)
  ∧ (∀ t, ti (run env d w) t = Failed →
       dagrun_state d (run env d w) = RunFailed
       ∧ ∀ u, before t u → ti (run env d w) u = UpstreamFailed)
  ∧ (∀ c, P !! "snowflake_conn_id" = Some c →
       (∀ tr c', render_field env sql_template_ext tr P c = Return c' →
                 connections w !! c' = None) →
       ti (run env d w) T_create_table_snowflake = Failed
       ∧ ti (run env d w) T_load_to_s3 = UpstreamFailed
       ∧ ti (run env d w) T_generate_presigned_url = UpstreamFailed
       ∧ ti (run env d w) T_notify_slack = UpstreamFailed
       ∧ dagrun_state d (run env d w) = RunFailed)
  ∧ (∀ dir, P = PARAMS_DEFINITION dir → renders_plain env →
       connections w !! "snowflake_conn_id" = None →
       ti (run env d w) T_create_table_snowflake = Failed
       ∧ ti (run env d w) T_load_to_s3 = UpstreamFailed
       ∧ ti (run env d w) T_generate_presigned_url = UpstreamFailed
       ∧ ti (run env d w) T_notify_slack = UpstreamFailed
       ∧ dagrun_state d (run env d w) = RunFailed).
Proof.
  intros Hd. split_and!.
  - intros acts r t u Hfollow Hf Hlt.
    apply follow_new_run in Hfollow as Hreach.
    assert (Hst : started (ti r u) = false).
    { eapply failure_blocks; eauto. by rewrite Hf. }
    split; [done|]. intros new c Htrace Hc.
    eapply unexecuted_makes_no_call; eauto.
    by destruct (ti r u).
  - intros acts r t Hfollow Hf.
    apply follow_new_run in Hfollow as Hreach.
    unfold dagrun_state. rewrite (leaves_eq P d Hd).
    destruct (forallb _ all_tasks); [|done]. cbn [forallb].
    destruct (decide (t = T_notify_slack)) as [->|Hne].
    + by rewrite Hf.
    + rewrite bool_decide_false; [done|]. intros Hs.
      pose proof (failure_blocks env P d Hd w r t T_notify_slack Hreach) as Hb.
      rewrite Hf, Hs in Hb.
      assert (before t T_notify_slack) by (unfold before; destruct t; cbn; lia || done).
      by specialize (Hb eq_refl H).
  - intros t. by apply (run_failure env P d Hd).
  - intros c HP Hmiss.
    pose proof (missing_warehouse_connection env P d Hd w c HP Hmiss) as Hf.
    destruct (run_failure env P d Hd w _ Hf) as (Hstate & Hdown).
    split_and!; [done | | | | done]; apply Hdown; unfold before; cbn; lia.
  - intros dir -> Hplain Hmiss.
    assert (Hf : ti (run env d w) T_create_table_snowflake = Failed).
    { apply (missing_warehouse_connection env _ d Hd w "snowflake_conn_id").
      - by apply reference_lookups.
      - intros tr c'. unfold render_field.
        replace (existsb (endswith "snowflake_conn_id") sql_template_ext)
          with false by (by vm_compute).
        rewrite Hplain by (by vm_compute). by intros [= <-]. }
    destruct (run_failure env _ d Hd w _ Hf) as (Hstate & Hdown).
    split_and!; [done | | | | done]; apply Hdown; unfold before; cbn; lia.
Qed.

Lemma C2_witness :
  states (run load_rejected sample_dag (sample_world None))
    = [Success; Failed; UpstreamFailed; UpstreamFailed]
  ∧ dagrun_state sample_dag (run load_rejected sample_dag (sample_world None))
    = RunFailed
  ∧ states (run obliging sample_dag no_warehouse_world)
    = [Failed; UpstreamFailed; UpstreamFailed; UpstreamFailed]
  ∧ dagrun_state sample_dag (run obliging sample_dag no_warehouse_world)
    = RunFailed.
Proof.
  destruct (C2_failure_halts_the_chain load_rejected (PARAMS_DEFINITION sample_dir)
              sample_dag (sample_world None)) as (_ & _ & Hrun & _).
  { vm_compute. reflexivity. }
  destruct (C2_failure_halts_the_chain obliging (PARAMS_DEFINITION sample_dir)
              sample_dag no_warehouse_world) as (_ & _ & _ & Hmiss & _).
  { vm_compute. reflexivity. }
  destruct (Hrun T_load_to_s3) as (Hstate & _).
  { vm_compute. reflexivity. }
  destruct (Hmiss "snowflake_conn_id") as (_ & _ & _ & _ & Hstate').
  { vm_compute. reflexivity. }
  { intros tr c' Hc'. vm_compute in Hc'. injection Hc' as <-.
    vm_compute. reflexivity. }
  split_and!; [vm_compute; reflexivity | exact Hstate
              | vm_compute; reflexivity | exact Hstate'].
Defined.

(** The reference configuration defines the DAG, whatever the directory
    the module is deployed in. *)
Lemma reference_dag_defined dir :
  ∃ d, account_monthly_balance_generation (PARAMS_DEFINITION dir) = Return d.
Proof. eexists. vm_compute. reflexivity. Qed.

(** The only task whose calls are signing requests is the link generator. *)
Lemma presign_call_of P d t cl req res :
  account_monthly_balance_generation P = Return d →
  call_of (operator (tasks d t)) (CallPresign cl req res) →
  t = T_generate_presigned_url.
Proof.
  intros Hd.
  destruct (dag_shape P d Hd)
    as (? & ? & ? & ? & ? & _ & _ & _ & _ & _ & _ & _ & _ & _ & H1 & H2 & _ & H4).
  destruct t; rewrite ?H1, ?H2, ?H4; done.
Qed.

(** The sample services render a string without markup to itself. *)
Lemma obliging_renders_plain : renders_plain obliging.
Proof. intros tr ps s Hs. cbn. unfold sample_jinja_string. by rewrite Hs. Qed.

(** C3. Under the reference configuration the link generator task is
    called with bucket terraform-nu-db-pg-48baa6b7, key
    output_files/account_monthly_balance.csv (path, a slash, the file
    name) and 604800 seconds.  Every signing request of every run asks for a
    get_object URL, for 604800 seconds, for the bucket and the key these
    two arguments render to; they hold no markup, so the request is for
    exactly that bucket and that key.  A run whose link generator succeeds
    has made that request, had it accepted, and holds the URL it returned;
    and a try of the task that resolves the AWS connection makes exactly one
    such request. *)
Theorem C3_link_generator_request env dir w :
  ∃ d,
    account_monthly_balance_generation (PARAMS_DEFINITION dir) = Return d
    ∧ operator (tasks d T_generate_presigned_url) =
        PresignTask "terraform-nu-db-pg-48baa6b7"
                    "output_files/account_monthly_balance.csv" 604800
    ∧ PARAMS_DEFINITION dir !! "bucket_s3" = Some "terraform-nu-db-pg-48baa6b7"
    ∧ PARAMS_DEFINITION dir !! "path" = Some "output_files"
    ∧ PARAMS_DEFINITION dir !! "filename" = Some "account_monthly_balance.csv"
    ∧ (∀ acts r new cl req res,
         follow env d (new_run w) acts = Some r →
         trace (world r) = trace w ++ new →
         CallPresign cl req res ∈ new →
         ClientMethod req = "get_object"
         ∧ ExpiresIn req = 604800
         ∧ ∃ tr, rendered_request env tr "terraform-nu-db-pg-48baa6b7"
                   "output_files/account_monthly_balance.csv" 604800 req)
    ∧ (renders_plain env →
       (∀ acts r new cl req res,
          follow env d (new_run w) acts = Some r →
          trace (world r) = trace w ++ new →
          CallPresign cl req res ∈ new →
          req = {| ClientMethod := "get_object";
                   Bucket := "terraform-nu-db-pg-48baa6b7";
                   Key := "output_files/account_monthly_balance.csv";
                   ExpiresIn := 604800 |})
       ∧ (∀ acts r new,
            follow env d (new_run w) acts = Some r →
            trace (world r) = trace w ++ new →
            ti r T_generate_presigned_url = Success →
            ∃ cl url,
              CallPresign cl
                {| ClientMethod := "get_object";
                   Bucket := "terraform-nu-db-pg-48baa6b7";
                   Key := "output_files/account_monthly_balance.csv";
                   ExpiresIn := 604800 |} (Some url) ∈ new
              ∧ xcom (world r) !! "generate_presigned_url" = Some url)
       ∧ (∀ w1 name conn,
            module_params w1 !! "aws_conn_id" = Some name →
            connections w1 !! name = Some conn →
            ∃ cl res,
              trace (execute env T_generate_presigned_url
                       (operator (tasks d T_generate_presigned_url)) w1).2
              = trace w1
                ++ [CallPresign cl
                      {| ClientMethod := "get_object";
                         Bucket := "terraform-nu-db-pg-48baa6b7";
                         Key := "output_files/account_monthly_balance.csv";
                         ExpiresIn := 604800 |} res])).
Proof.
  destruct (reference_dag_defined dir) as (d & Hd). exists d.
  assert (Hop : operator (tasks d T_generate_presigned_url) =
                PresignTask "terraform-nu-db-pg-48baa6b7"
                            "output_files/account_monthly_balance.csv" 604800).
  { destruct (dag_shape _ d Hd)
      as (? & ? & b & p & f & _ & _ & Hb & Hp & Hf & _ & _ & _ & _ & _ & _ & H3 & _).
    rewrite (reference_lookups dir "bucket_s3" _ eq_refl) in Hb.
    rewrite (reference_lookups dir "path" _ eq_refl) in Hp.
    rewrite (reference_lookups dir "filename" _ eq_refl) in Hf.
    injection Hb as <-. injection Hp as <-. injection Hf as <-. exact H3. }
  assert (Hreq : ∀ acts r new cl req res,
            follow env d (new_run w) acts = Some r →
            trace (world r) = trace w ++ new →
            CallPresign cl req res ∈ new →
            ∃ tr, rendered_request env tr "terraform-nu-db-pg-48baa6b7"
                    "output_files/account_monthly_balance.csv" 604800 req).
  { intros acts r new cl req res Hfollow Htrace Hin.
    apply (follow_new_run env d) in Hfollow as Hreach.
    pose proof (run_signing_request env _ d Hd w r new cl req res
                  Hreach Htrace Hin) as Hres.
    unfold resolved_by in Hres. rewrite Hop in Hres. by destruct Hres as (? & _). }
  assert (Hexact : renders_plain env →
            ∀ acts r new cl req res,
              follow env d (new_run w) acts = Some r →
              trace (world r) = trace w ++ new →
              CallPresign cl req res ∈ new →
              req = request_of "terraform-nu-db-pg-48baa6b7"
                      "output_files/account_monthly_balance.csv" 604800).
  { intros Hplain acts r new cl req res Hfollow Htrace Hin.
    destruct (Hreq acts r new cl req res Hfollow Htrace Hin) as (tr & Hr).
    by apply (rendered_request_plain env tr _ _ _ _ Hplain). }
  split; [done|]. split; [done|].
  split; [by apply reference_lookups|]. split; [by apply reference_lookups|].
  split; [by apply reference_lookups|]. split; [|intros Hplain; split; [|split]].
  - intros acts r new cl req res Hfollow Htrace Hin.
    destruct (Hreq acts r new cl req res Hfollow Htrace Hin) as (tr & Hr).
    pose proof Hr as (b' & k' & _ & _ & Heq).
    split; [by rewrite Heq|]. split; [by rewrite Heq|]. by exists tr.
  - by apply Hexact.
  - intros acts r new Hfollow Htrace Hs.
    apply (follow_new_run env d) in Hfollow as Hreach.
    destruct (run_signed_url env _ d Hd w r new Hreach Htrace Hs)
      as (cl & req & url & Hin & Hx).
    exists cl, url. split; [|done].
    pose proof (Hexact Hplain acts r new cl req (Some url) Hfollow Htrace Hin)
      as Heq.
    unfold request_of in Heq. by rewrite <- Heq.
  - intros w1 name conn Hname Hconn.
    rewrite Hop, execute_presign_eq. unfold render_field. cbn [existsb].
    rewrite !Hplain by done. rewrite Hname, Hconn. cbn zeta.
    destruct (s3_sign env _ _ _); cbn; eauto.
Qed.

Lemma C3_witness :
  ∃ cl url,
    CallPresign cl
      {| ClientMethod := "get_object";
         Bucket := "terraform-nu-db-pg-48baa6b7";
         Key := "output_files/account_monthly_balance.csv";
         ExpiresIn := 604800 |} (Some url)
      ∈ trace (world (run obliging sample_dag (sample_world None)))
    ∧ xcom (world (run obliging sample_dag (sample_world None)))
        !! "generate_presigned_url" = Some url.
Proof.
  destruct (C3_link_generator_request obliging sample_dir (sample_world None))
    as (d & Hd & _ & _ & _ & _ & _ & Hplain).
  destruct (Hplain obliging_renders_plain) as (_ & Hrun & _).
  assert (d = sample_dag) as ->.
  { unfold sample_dag. by rewrite Hd. }
  apply (Hrun chain_schedule (run obliging sample_dag (sample_world None))
           (trace (world (run obliging sample_dag (sample_world None))))).
  - vm_compute. reflexivity.
  - reflexivity.
  - vm_compute. reflexivity.
Defined.

(** C4. Whatever URL the notifier is given, the message of the operator it
    builds is the fixed prefix, a newline and the URL, nothing changed; every
    call the notifier makes to the webhook carries that message, and a
    successful notifier has delivered exactly that one message. *)
Theorem C4_notifier_message env url w :
  message (notify_slack_operator url) =
    check_mark +:+ " CSV file for monthly account balance is available at:"
      +:+ nl +:+ url
  ∧ ∃ new,
      trace (notify_slack env url w).2 = trace w ++ new
      ∧ Forall (λ c, ∃ op ok,
                  c = CallSlack op ok
                  ∧ message op =
                      check_mark
                        +:+ " CSV file for monthly account balance is available at:"
                        +:+ nl +:+ url) new
      ∧ (succeeded (notify_slack env url w).1 = true →
         ∃ op, posted new = [op] ∧ op = notify_slack_operator url).
Proof.
  split; [done|]. unfold notify_slack.
  rewrite SlackWebhookOperator_execute_eq.
  destruct (connections w !! _) as [c|]; cbn.
  - set (op := notify_slack_operator url).
    exists [CallSlack op (webhook env (trace w) c op)]. split_and!; [done| |].
    + constructor; [|constructor]. by exists op, (webhook env (trace w) c op).
    + destruct (webhook env (trace w) c op); [|done]. intros _. by exists op.
  - exists []. split_and!; [by rewrite app_nil_r | constructor | done].
Qed.

Lemma C4_witness :
  ∃ op, posted (trace (notify_slack obliging "https://example.test/a b?c=%20&d"
                         (sample_world None)).2) = [op]
        ∧ message op =
            check_mark +:+ " CSV file for monthly account balance is available at:"
              +:+ nl +:+ "https://example.test/a b?c=%20&d".
Proof.
  destruct (C4_notifier_message obliging "https://example.test/a b?c=%20&d"
              (sample_world None)) as (Hmsg & new & Htrace & _ & Hok).
  destruct Hok as (op & Hposted & ->); [vm_compute; reflexivity|].
  exists (notify_slack_operator "https://example.test/a b?c=%20&d").
  split; [|exact Hmsg].
  rewrite Htrace. exact Hposted.
Defined.

(** The credentials of the session are those of the connection, and its
    region is the connection's, when it has one. *)
Lemma session_of_connection conn :
  aws_access_key_id (session_of conn) = login conn
  ∧ aws_secret_access_key (session_of conn) = password conn
  ∧ ∀ region, extra_dejson conn !! "region_name" = Some region →
              session_region (session_of conn) = region.
Proof. split_and!; [done..|]. intros region H. cbn. by rewrite H. Qed.

(** C5. A connection whose region is eu-west-1: the session is built with
    the credentials and the region of the connection, but the client that
    signs is created for us-east-1. *)
Theorem C5_signing_client_region_is_not_the_connections :
  extra_dejson (aws_connection (Some "eu-west-1")) !! "region_name"
    = Some "eu-west-1"
  ∧ ∃ cl req res,
      trace (generate_presigned_url obliging "terraform-nu-db-pg-48baa6b7"
               "output_files/account_monthly_balance.csv" 604800
               (sample_world (Some "eu-west-1"))).2
      = [CallPresign cl req res]
      ∧ aws_access_key_id (client_session cl) = Some "AKIAEXAMPLE"
      ∧ aws_secret_access_key (client_session cl) = Some "wJalrEXAMPLEKEY"
      ∧ session_region (client_session cl) = "eu-west-1"
      ∧ client_region cl = "us-east-1"
      ∧ client_region cl ≠ "eu-west-1".
Proof.
  split; [by vm_compute|].
  rewrite generate_presigned_url_eq.
  replace (module_params (sample_world (Some "eu-west-1")) !! "aws_conn_id")
    with (Some "aws_conn_id") by (vm_compute; reflexivity).
  replace (connections (sample_world (Some "eu-west-1")) !! "aws_conn_id")
    with (Some (aws_connection (Some "eu-west-1"))) by (vm_compute; reflexivity).
  cbn. do 3 eexists. split; [reflexivity|]. by split_and!.
Qed.

(** ** Messages delivered by a run *)

Lemma posted_elem m tr : m ∈ posted tr → CallSlack m true ∈ tr.
Proof.
  unfold posted. rewrite list_elem_of_omap. intros (c & Hc & Hm).
  destruct c as [| |op [|]]; try done. by injection Hm as ->.
Qed.

(** A run delivers one message when the notifier succeeds and none
    otherwise; the message is one the notifier built. *)
Lemma run_delivers env P d w0 r :
  account_monthly_balance_generation P = Return d →
  reachable env d (new_run w0) r →
  ∃ new,
    extends w0 (world r) new
    ∧ if bool_decide (ti r T_notify_slack = Success)
      then ∃ url, posted new = [notify_slack_operator url]
      else posted new = [].
Proof.
  intros Hd Hreach.
  destruct (reachable_world env d w0 r Hreach) as (new & Hext & Hcalls & Hlen).
  exists new. split; [done|].
  destruct (dag_shape P d Hd)
    as (? & ? & ? & ? & ? & _ & _ & _ & _ & _ & _ & _ & _ & _ & H1 & H2 & H3 & H4).
  unfold delivered_by, tasks_sum in Hlen. cbn [foldr all_tasks] in Hlen.
  rewrite H1, H2, H3, H4 in Hlen. cbn [posts_of] in Hlen.
  assert (Hlen' : length (posted new) =
                  if bool_decide (ti r T_notify_slack = Success) then 1%nat else 0%nat).
  { rewrite Hlen. repeat case_bool_decide; lia. }
  clear Hlen. destruct (bool_decide (ti r T_notify_slack = Success)).
  - destruct (posted new) as [|m [|]] eqn:Hp; try done.
    assert (Hm : CallSlack m true ∈ new).
    { apply posted_elem. rewrite Hp. by left. }
    rewrite Forall_forall in Hcalls. apply list_elem_of_In in Hm.
    destruct (Hcalls _ Hm) as (t & _ & Hcall).
    destruct t; rewrite ?H1, ?H2, ?H3, ?H4 in Hcall; try done.
    destruct Hcall as (url & ->). by exists url.
  - by destruct (posted new).
Qed.

(** C6. Each complete (successful) run delivers exactly one message, one
    the notifier built, and a second complete run, started where the first
    ended, delivers a second one: after the two runs the channel holds two
    more messages than before.  Nothing in the second run looks at what was
    posted already. *)
Theorem C6_two_runs_post_two_messages env P d w :
  account_monthly_balance_generation P = Return d →
  dagrun_state d (run env d w) = RunSuccess →
  dagrun_state d (run env d (world (run env d w))) = RunSuccess →
  ∃ url1 url2,
    posted (trace (world (run env d w)))
      = posted (trace w) ++ [notify_slack_operator url1]
    ∧ posted (trace (world (run env d (world (run env d w)))))
      = posted (trace w) ++ [notify_slack_operator url1; notify_slack_operator url2]
    ∧ length (posted (trace (world (run env d (world (run env d w))))))
      = (length (posted (trace w)) + 2)%nat.
Proof.
  intros Hd Hs1 Hs2.
  rewrite (run_state env P d Hd) in Hs1, Hs2.
  destruct (run_delivers env P d w _ Hd (run_reachable env d w))
    as (new1 & (_ & _ & Ht1) & Hp1).
  destruct (run_delivers env P d (world (run env d w)) _ Hd
              (run_reachable env d _)) as (new2 & (_ & _ & Ht2) & Hp2).
  destruct (bool_decide (ti (run env d w) T_notify_slack = Success)); [|done].
  destruct (bool_decide (ti (run env d (world (run env d w))) T_notify_slack
                         = Success)); [|done].
  destruct Hp1 as (url1 & Hp1). destruct Hp2 as (url2 & Hp2).
  exists url1, url2.
  rewrite Ht2, Ht1, !posted_app, Hp1, Hp2, <- app_assoc.
  split_and!; [done..|]. rewrite !length_app. cbn. lia.
Qed.

Lemma C6_witness :
  length (posted (trace (world (run obliging sample_dag
                                  (world (run obliging sample_dag
                                            (sample_world None)))))))
  = (length (posted (trace (sample_world None))) + 2)%nat.
Proof.
  destruct (C6_two_runs_post_two_messages obliging (PARAMS_DEFINITION sample_dir)
              sample_dag (sample_world None)) as (url1 & url2 & _ & _ & Hlen).
  - vm_compute. reflexivity.
  - vm_compute. reflexivity.
  - vm_compute. reflexivity.
  - exact Hlen.
Defined.

(** C7, as the code has it.  Every task of the DAG is retried under the
    one budget of the DAG's default arguments, which is three retries, that
    is up to four attempts: one try, and one more for each of the three
    retries.  No task gives a number of retries of its own, and the engine
    runs each task instance with that budget, so that a task instance makes
    between one and four attempts and no more than four calls. *)
Theorem C7_uniform_retries env P d :
  account_monthly_balance_generation P = Return d →
  da_retries (default_args d) = Some 3%nat
  ∧ ∀ t,
      retries (tasks d t) = None
      ∧ task_retries d t = 3%nat
      ∧ ∀ w,
          run_task_instance env d t w =
            run_with_retries 3 (execute env t (operator (tasks d t))) w
          ∧ (1 ≤ attempts env d t w ≤ 4)%nat
          ∧ ∃ new,
              trace (run_task_instance env d t w).2 = trace w ++ new
              ∧ (length new ≤ 4)%nat.
Proof.
  intros Hd.
  destruct (dag_shape P d Hd)
    as (? & ? & ? & ? & ? & _ & _ & _ & _ & _ & _ & Hda & _ & Hret & _).
  assert (Hall : ∀ t, task_retries d t = 3%nat).
  { intros t. unfold task_retries. by rewrite Hret, Hda. }
  split; [by rewrite Hda|]. intros t.
  split; [done|]. split; [done|].
  intros w. unfold run_task_instance, attempts. rewrite Hall.
  split; [done|]. split; [apply tries_made_bounds|].
  apply run_with_retries_calls.
Qed.

Lemma C7_witness :
  task_retries sample_dag <$> all_tasks = [3; 3; 3; 3]%nat.
Proof.
  destruct (C7_uniform_retries obliging (PARAMS_DEFINITION sample_dir) sample_dag)
    as (_ & Hall).
  - vm_compute. reflexivity.
  - cbn [fmap list_fmap all_tasks].
    by rewrite !(λ t, proj1 (proj2 (Hall t))).
Defined.

(** C7, as the claim has it: a budget of three attempts.  The load
    statement of the workflow, rejected by the warehouse every time, is sent
    four times: the task instance makes a fourth attempt. *)
Lemma C7_fourth_attempt :
  account_monthly_balance_generation (PARAMS_DEFINITION sample_dir)
    = Return sample_dag
  ∧ attempts load_rejected sample_dag T_load_to_s3 (sample_world None) = 4%nat
  ∧ length (trace (run_task_instance load_rejected sample_dag T_load_to_s3
                     (sample_world None)).2) = 4%nat
  ∧ ¬ (∀ env t w, (attempts env sample_dag t w ≤ 3)%nat).
Proof.
  assert (H4 : attempts load_rejected sample_dag T_load_to_s3 (sample_world None)
               = 4%nat) by (vm_compute; reflexivity).
  split; [vm_compute; reflexivity|]. split; [exact H4|].
  split; [vm_compute; reflexivity|].
  intros Hle.
  specialize (Hle load_rejected T_load_to_s3 (sample_world None)).
  rewrite H4 in Hle. lia.
Qed.

(** C8. The configuration is the one dictionary the module defines.  No
    try of any task changes it, so it is the same at every point of a run
    as when the DAG was defined; both SQL operators carry that dictionary
    as their parameters and the warehouse connection it names; and the
    arguments of the link generator are entries of it. *)
Theorem C8_configuration_is_fixed env w d acts r :
  account_monthly_balance_generation (module_params w) = Return d →
  follow env d (new_run w) acts = Some r →
  module_params (world r) = module_params w
  ∧ (∀ t op w1, module_params (execute env t op w1).2 = module_params w1)
  ∧ (∃ c op1 op2,
       module_params (world r) !! "snowflake_conn_id" = Some c
       ∧ operator (tasks d T_create_table_snowflake) = SQLTask op1
       ∧ operator (tasks d T_load_to_s3) = SQLTask op2
       ∧ conn_id op1 = c ∧ conn_id op2 = c
       ∧ params op1 = module_params (world r)
       ∧ params op2 = module_params (world r))
  ∧ (∃ b p f,
       module_params (world r) !! "bucket_s3" = Some b
       ∧ module_params (world r) !! "path" = Some p
       ∧ module_params (world r) !! "filename" = Some f
       ∧ operator (tasks d T_generate_presigned_url) =
           PresignTask b (p +:+ "/" +:+ f) 604800).
Proof.
  intros Hd Hfollow. apply (follow_new_run env d) in Hfollow as Hreach.
  destruct (reachable_world env d w r Hreach) as (new & (Hsame & _ & _) & _).
  destruct (dag_shape _ d Hd)
    as (sp & c & b & p & f & _ & Hc & Hb & Hp & Hf & _ & _ & _ & _
        & H1 & H2 & H3 & _).
  rewrite Hsame. split_and!.
  - done.
  - intros t op w1.
    by destruct (execute_spec env t op w1) as (? & (Hm & _ & _) & _).
  - by eexists c, _, _.
  - by exists b, p, f.
Qed.

Lemma C8_witness :
  module_params (world (run obliging sample_dag (sample_world None)))
  = PARAMS_DEFINITION sample_dir.
Proof.
  destruct (C8_configuration_is_fixed obliging (sample_world None) sample_dag
              chain_schedule (run obliging sample_dag (sample_world None)))
    as (Hsame & _).
  - vm_compute. reflexivity.
  - vm_compute. reflexivity.
  - exact Hsame.
Defined.

(** C9. A try of the link generator that resolves the AWS connection makes
    one signing request, through a client for us-east-1 whatever region the
    connection has; the session under it has the region of the connection,
    and us-east-1 when the connection names none.  In every run, every
    signing request goes through a client for us-east-1. *)
Theorem C9_signing_region env b k e w name conn :
  module_params w !! "aws_conn_id" = Some name →
  connections w !! name = Some conn →
  (∃ cl res,
     trace (generate_presigned_url env b k e w).2
       = trace w ++ [CallPresign cl (request_of b k e) res]
     ∧ client_region cl = "us-east-1"
     ∧ session_region (client_session cl)
       = default "us-east-1" (extra_dejson conn !! "region_name")
     ∧ (extra_dejson conn !! "region_name" = None →
        session_region (client_session cl) = "us-east-1")
     ∧ (∀ region, extra_dejson conn !! "region_name" = Some region →
                  session_region (client_session cl) = region
                  ∧ client_region cl = "us-east-1"))
  ∧ (∀ P d acts r new cl req res,
       account_monthly_balance_generation P = Return d →
       follow env d (new_run w) acts = Some r →
       trace (world r) = trace w ++ new →
       CallPresign cl req res ∈ new →
       client_region cl = "us-east-1").
Proof.
  intros Hname Hconn. split.
  - rewrite generate_presigned_url_eq, Hname, Hconn. cbn.
    do 2 eexists. split; [reflexivity|]. cbn.
    split_and!; [done | done | by intros -> |]. by intros region ->.
  - intros P d acts r new cl req res Hd Hfollow Htrace Hin.
    apply (follow_new_run env d) in Hfollow as Hreach.
    destruct (reachable_world env d w r Hreach)
      as (new' & (_ & _ & Ht) & Hcalls & _).
    rewrite Htrace in Ht. apply app_inv_head in Ht as <-.
    rewrite Forall_forall in Hcalls. apply list_elem_of_In in Hin.
    destruct (Hcalls _ Hin) as (t & _ & Hcall).
    destruct (operator (tasks d t)); try done. by destruct Hcall as (_ & _ & _ & ?).
Qed.

Lemma C9_witness :
  ∃ cl res,
    trace (generate_presigned_url obliging "b" "k" 60
             (sample_world (Some "eu-west-1"))).2
      = trace (sample_world (Some "eu-west-1"))
        ++ [CallPresign cl (request_of "b" "k" 60) res]
    ∧ client_region cl = "us-east-1"
    ∧ session_region (client_session cl) = "eu-west-1".
Proof.
  destruct (C9_signing_region obliging "b" "k" 60
              (sample_world (Some "eu-west-1")) "aws_conn_id"
              (aws_connection (Some "eu-west-1")))
    as ((cl & res & Htrace & Hclient & _ & _ & Hregion) & _).
  - vm_compute. reflexivity.
  - vm_compute. reflexivity.
  - exists cl, res. split_and!; [exact Htrace | exact Hclient |].
    apply (Hregion "eu-west-1"). vm_compute. reflexivity.
Defined.

(** ** Strings that end in a given suffix *)

Lemma string_length_app (a b : string) :
  String.length (a +:+ b) = (String.length a + String.length b)%nat.
Proof.
  induction a as [|x a IH]; [done|].
  change (S (String.length (a +:+ b)) = S (String.length a + String.length b)).
  by rewrite IH.
Qed.

Lemma string_app_assoc (a b c : string) : (a +:+ b) +:+ c = a +:+ (b +:+ c).
Proof.
  induction a as [|x a IH]; [done|].
  change (String x ((a +:+ b) +:+ c) = String x (a +:+ (b +:+ c))).
  by rewrite IH.
Qed.

Lemma substring_all (s : string) : String.substring 0 (String.length s) s = s.
Proof.
  induction s as [|x s IH]; [done|].
  change (String x (String.substring 0 (String.length s) s) = String x s).
  by rewrite IH.
Qed.

Lemma substring_app (a b : string) :
  String.substring (String.length a) (String.length b) (a +:+ b) = b.
Proof. induction a as [|x a IH]; [apply substring_all | exact IH]. Qed.

Lemma endswith_app (a b : string) : endswith (a +:+ b) b = true.
Proof.
  unfold endswith. cbv zeta. rewrite string_length_app.
  destruct (decide _) as [_|Hn]; [|lia].
  replace (String.length a + String.length b - String.length b)%nat
    with (String.length a) by lia.
  rewrite substring_app. by apply bool_decide_eq_true.
Qed.

(** The directory of the SQL templates ends in [queries]. *)
Lemma queries_base_path_suffix dir :
  endswith (os_path_join dir "queries") "queries" = true.
Proof.
  unfold os_path_join.
  replace (String.prefix "/" "queries") with false by (by vm_compute).
  destruct (bool_decide (dir = EmptyString) || endswith dir "/").
  - apply endswith_app.
  - rewrite <- string_app_assoc. apply endswith_app.
Qed.

(** C10. The notifier posts through the connection slack_webhook_conn
    under the name airflow-bot whatever URL it is given; in every run of the
    DAG, whatever dictionary it was defined from and whatever dictionary the
    world holds, every call to the webhook names that connection and that
    user.  The dictionary of the module has the eleven keys of the source,
    none of them for the webhook or the user, and none of its values is
    either name; the warehouse connection of the SQL operators, in contrast,
    is the entry snowflake_conn_id of the dictionary. *)
Theorem C10_notifier_constants env w :
  (∀ url,
     slack_webhook_conn_id (notify_slack_operator url) = "slack_webhook_conn"
     ∧ username (notify_slack_operator url) = "airflow-bot")
  ∧ (∀ P d acts r new op ok,
       account_monthly_balance_generation P = Return d →
       follow env d (new_run w) acts = Some r →
       trace (world r) = trace w ++ new →
       CallSlack op ok ∈ new →
       slack_webhook_conn_id op = "slack_webhook_conn"
       ∧ username op = "airflow-bot")
  ∧ (∀ dir,
       dom (PARAMS_DEFINITION dir) =
         list_to_set
           [ "snowflake_conn_id"; "aws_conn_id"; "queries_base_path"; "db";
             "schema_origin"; "schema_destination"; "stage"; "path";
             "bucket_s3"; "filename"; "files_dir" ]
       ∧ ∀ k v, PARAMS_DEFINITION dir !! k = Some v →
                v ≠ "slack_webhook_conn" ∧ v ≠ "airflow-bot")
  ∧ (∀ P d c,
       account_monthly_balance_generation P = Return d →
       P !! "snowflake_conn_id" = Some c →
       ∃ op, operator (tasks d T_create_table_snowflake) = SQLTask op
             ∧ conn_id op = c).
Proof.
  split_and!.
  - done.
  - intros P d acts r new op ok Hd Hfollow Htrace Hin.
    apply (follow_new_run env d) in Hfollow as Hreach.
    destruct (reachable_world env d w r Hreach)
      as (new' & (_ & _ & Ht) & Hcalls & _).
    rewrite Htrace in Ht. apply app_inv_head in Ht as <-.
    rewrite Forall_forall in Hcalls. apply list_elem_of_In in Hin.
    destruct (Hcalls _ Hin) as (t & _ & Hcall).
    destruct (operator (tasks d t)); try done. by destruct Hcall as (u & ->).
  - intros dir. split.
    { unfold PARAMS_DEFINITION. by rewrite dom_list_to_map_L. }
    intros k v Hkv. unfold PARAMS_DEFINITION in Hkv.
    apply elem_of_list_to_map_2 in Hkv.
    repeat (apply elem_of_cons in Hkv as [Hkv|Hkv];
            [injection Hkv as -> ->; try (split; discriminate)|]).
    + pose proof (queries_base_path_suffix dir) as Hsuf.
      split; intros Heq; rewrite Heq in Hsuf; by vm_compute in Hsuf.
    + by apply elem_of_nil in Hkv.
  - intros P d c Hd Hc.
    destruct (dag_shape P d Hd)
      as (? & c' & ? & ? & ? & _ & Hc' & _ & _ & _ & _ & _ & _ & _ & H1 & _).
    eexists. split; [exact H1|]. cbn. congruence.
Qed.

Lemma C10_witness :
  Forall (λ c, match c with
               | CallSlack op _ =>
                   slack_webhook_conn_id op = "slack_webhook_conn"
                   ∧ username op = "airflow-bot"
               | _ => True
               end)
         (trace (world (run obliging sample_dag (sample_world None)))).
Proof.
  apply Forall_forall. intros c Hin. destruct c as [| |op ok]; [exact I..|].
  destruct (C10_notifier_constants obliging (sample_world None)) as (_ & Hrun & _).
  apply (Hrun (PARAMS_DEFINITION sample_dir) sample_dag chain_schedule
           (run obliging sample_dag (sample_world None))
           (trace (world (run obliging sample_dag (sample_world None)))) op ok).
  - vm_compute. reflexivity.
  - vm_compute. reflexivity.
  - reflexivity.
  - apply list_elem_of_In. exact Hin.
Defined.

(** * Further properties *)

(** ** Properties of the workflow beyond the claims *)

(** X1. The module reads five keys of the dictionary while it defines the
    DAG: the DAG is defined when all five are there, and the definition
    raises KeyError for the first one that is not, in the order
    queries_base_path, snowflake_conn_id, bucket_s3, path, filename.  The
    key aws_conn_id is not among them: it is read when the link generator
    runs. *)
Theorem X1_definition_reads_five_keys P :
  match first_missing P definition_keys with
  | Some k => account_monthly_balance_generation P = Raise (KeyError k)
  | None => ∃ d, account_monthly_balance_generation P = Return d
  end.
Proof.
  unfold first_missing, definition_keys. cbn [List.find].
  unfold account_monthly_balance_generation, rbind, getitem.
  destruct (P !! "queries_base_path");
    [rewrite bool_decide_false by done | by rewrite bool_decide_true].
  destruct (P !! "snowflake_conn_id");
    [rewrite bool_decide_false by done | by rewrite bool_decide_true].
  destruct (P !! "bucket_s3");
    [rewrite bool_decide_false by done | by rewrite bool_decide_true].
  destruct (P !! "path");
    [rewrite bool_decide_false by done | by rewrite bool_decide_true].
  destruct (P !! "filename");
    [rewrite bool_decide_false by done | by rewrite bool_decide_true].
  by eexists.
Qed.

(** X2. A task instance that cannot resolve what it needs fails, whatever
    the number of retries, without a call to any service and without any
    change to the world.  What a task needs: a SQL operator, that its
    connection identifier and its statement render, and the connection
    under the rendered name; the link generator, that its bucket and its key
    render, the entry aws_conn_id and the connection it names; the
    notifier, the connection slack_webhook_conn (not the URL of the
    upstream task: without one the message is built from None). *)
Theorem X2_unresolvable_task_instance_fails env t op n w :
  ¬ resolvable env (trace w) w op →
  run_with_retries n (execute env t op) w = (false, w).
Proof. apply unresolvable_fails. Qed.

Lemma X2_witness :
  run_task_instance obliging sample_dag T_create_table_snowflake no_warehouse_world
  = (false, no_warehouse_world).
Proof.
  apply (X2_unresolvable_task_instance_fails obliging T_create_table_snowflake
           (operator (tasks sample_dag T_create_table_snowflake)) 3
           no_warehouse_world).
  intros (c & Hc & _ & Hsome). vm_compute in Hc. injection Hc as <-.
  destruct Hsome as (conn & Hconn). vm_compute in Hconn. discriminate.
Defined.

(** X3. A task instance of the workflow that resolves what it needs at
    every try (its template fields render, and the registry holds its
    connection) calls its service once per try: one try and three retries
    at most.  It succeeds with the first accepted call, after at most three
    rejected ones, and fails only after four rejected calls. *)
Theorem X3_task_instance_tries env P d t w :
  account_monthly_balance_generation P = Return d →
  (∀ tr, resolvable env tr w (operator (tasks d t))) →
  ∃ rejected final,
    trace (run_task_instance env d t w).2 = trace w ++ rejected ++ final
    ∧ Forall (λ c, call_ok c = false) rejected
    ∧ (if (run_task_instance env d t w).1
       then (∃ c, final = [c] ∧ call_ok c = true) ∧ (length rejected ≤ 3)%nat
       else final = [] ∧ length rejected = 4%nat).
Proof.
  intros Hd Hres.
  destruct (dag_shape P d Hd)
    as (? & ? & ? & ? & ? & _ & _ & _ & _ & _ & _ & Hda & _ & Hret & _).
  assert (Hn : task_retries d t = 3%nat).
  { unfold task_retries. by rewrite Hret, Hda. }
  unfold run_task_instance. rewrite Hn.
  exact (resolvable_tries env t (operator (tasks d t)) 3 w Hres).
Qed.

Lemma X3_witness :
  ∃ rejected,
    trace (run_task_instance load_rejected sample_dag T_load_to_s3
             (sample_world None)).2 = rejected
    ∧ length rejected = 4%nat
    ∧ Forall (λ c, call_ok c = false) rejected.
Proof.
  destruct (X3_task_instance_tries load_rejected (PARAMS_DEFINITION sample_dir)
              sample_dag T_load_to_s3 (sample_world None))
    as (rej & fin & Ht & Hrej & Hfin).
  - vm_compute. reflexivity.
  - intros tr. exists "snowflake_conn_id".
    split; [vm_compute; reflexivity|]. split; [vm_compute; reflexivity|].
    exists plain_connection. vm_compute. reflexivity.
  - replace (run_task_instance load_rejected sample_dag T_load_to_s3
               (sample_world None)).1 with false in Hfin
      by (vm_compute; reflexivity).
    destruct Hfin as (-> & Hlen).
    exists rej. rewrite Ht, app_nil_r. by split_and!.
Defined.

(** X4. In every run, under any schedule, the calls the services accepted
    are, in the order they were made, one call of each task instance that
    succeeded, in the order of the chain: a task instance that failed or was
    not run has no accepted call, and the retries never make a second
    accepted call of a task.  The accepted call of a task is made through
    what the task resolved: the signing request, for the bucket and the key
    the arguments of the link generator render to. *)
Theorem X4_one_accepted_call_per_success env P d w acts r new :
  account_monthly_balance_generation P = Return d →
  follow env d (new_run w) acts = Some r →
  trace (world r) = trace w ++ new →
  Forall2 (λ t c, call_of (operator (tasks d t)) c
                  ∧ call_resolved env w (operator (tasks d t)) c
                  ∧ call_ok c = true)
          (succeeded_tasks r) (accepted new).
Proof.
  intros Hd Hfollow Htrace. apply (follow_new_run env d) in Hfollow as Hreach.
  destruct (reachable_accepted env P d Hd w r Hreach) as (new' & Hext & _ & Hacc).
  rewrite (extends_new _ _ _ _ Hext Htrace).
  pose proof (accepted_all_ok new') as Hok.
  revert Hok. induction Hacc as [|t c ts cs Ht _ IH]; [constructor|].
  intros Hok. apply Forall_cons_1 in Hok as [Hc Hok].
  constructor; [|by apply IH].
  split; [by eapply call_resolved_call_of|]. by split.
Qed.

Lemma X4_witness :
  Forall2 (λ t c, call_of (operator (tasks sample_dag t)) c
                  ∧ call_resolved load_rejected (sample_world None)
                      (operator (tasks sample_dag t)) c
                  ∧ call_ok c = true)
    [T_create_table_snowflake]
    (accepted (trace (world (run load_rejected sample_dag (sample_world None))))).
Proof.
  pose proof (X4_one_accepted_call_per_success load_rejected
                (PARAMS_DEFINITION sample_dir) sample_dag (sample_world None)
                halted_schedule
                (run load_rejected sample_dag (sample_world None))
                (trace (world (run load_rejected sample_dag (sample_world None)))))
    as H.
  apply H.
  - vm_compute. reflexivity.
  - vm_compute. reflexivity.
  - reflexivity.
Defined.

(** X5. The services accept exactly four calls in a successful run, in
    this order: the create statement, the load statement, one signing
    request, and one message.  The signing request is a get_object request
    for the bucket and the key that the arguments of the link generator
    render to, for 604800 seconds; and the message accepted is the one built
    from the URL that signing request returned. *)
Theorem X5_successful_run_calls env P d w acts r new :
  account_monthly_balance_generation P = Return d →
  follow env d (new_run w) acts = Some r →
  trace (world r) = trace w ++ new →
  dagrun_state d r = RunSuccess →
  ∃ o1 o2 b k cl req url,
    operator (tasks d T_create_table_snowflake) = SQLTask o1
    ∧ operator (tasks d T_load_to_s3) = SQLTask o2
    ∧ operator (tasks d T_generate_presigned_url) = PresignTask b k 604800
    ∧ (∃ tr, rendered_request env tr b k 604800 req)
    ∧ accepted new =
        [ CallSQL o1 true; CallSQL o2 true;
          CallPresign cl req (Some url);
          CallSlack (notify_slack_operator url) true ].
Proof.
  intros Hd Hfollow Htrace Hstate.
  apply (follow_new_run env d) in Hfollow as Hreach.
  assert (Hs : ti r T_notify_slack = Success).
  { revert Hstate. unfold dagrun_state. rewrite (leaves_eq P d Hd).
    destruct (forallb _ all_tasks); [|done]. cbn [forallb].
    destruct (bool_decide (ti r T_notify_slack = Success)) eqn:Hb; [|done].
    intros _. by apply bool_decide_eq_true in Hb. }
  destruct (accepted_first_three env P d Hd w r new [T_notify_slack] Hreach Htrace)
    as (o1 & o2 & b & k & cl & req & url & rest & H1 & H2 & H3 & Hacc
        & _ & _ & R3 & Hrest).
  { exact (succeeded_tasks_all env P d Hd w r Hreach Hs). }
  apply Forall2_cons_inv_l in Hrest as (c4 & l4 & Ho4 & Hnil & ->).
  apply Forall2_nil_inv_l in Hnil as ->.
  exists o1, o2, b, k, cl, req, url.
  split; [done|]. split; [done|]. split; [done|].
  split; [by destruct R3 as (? & _)|].
  rewrite Hacc. do 3 f_equal.
  assert (Hin4 : c4 ∈ accepted new).
  { rewrite Hacc. do 3 right. by left. }
  apply accepted_elem in Hin4 as (Hin4 & Hok4).
  destruct (dag_shape P d Hd)
    as (? & ? & ? & ? & ? & _ & _ & _ & _ & _ & _ & _ & _ & _ & _ & _ & _ & H4).
  unfold resolved_by in Ho4. rewrite H4 in Ho4.
  destruct c4 as [| |o4 ok4]; try done. cbn in Hok4. subst ok4.
  destruct (reachable_url env P d Hd w r Hreach) as (new' & Hext & _ & Hslack).
  rewrite <- (extends_new _ _ _ _ Hext Htrace) in Hslack.
  destruct (Hslack _ _ Hin4) as (cl' & req' & url' & Hin' & ->).
  assert (Hin3 : CallPresign cl' req' (Some url') ∈ accepted new).
  { apply accepted_elem. split; [done|]. cbn.
    first [done | by apply bool_decide_eq_true]. }
  rewrite Hacc in Hin3.
  apply elem_of_cons in Hin3 as [[=]|Hin3].
  apply elem_of_cons in Hin3 as [[=]|Hin3].
  apply elem_of_cons in Hin3 as [Heq|Hin3].
  - by injection Heq as _ _ ->.
  - apply elem_of_cons in Hin3 as [[=]|Hin3]. by apply elem_of_nil in Hin3.
Qed.

Lemma X5_witness :
  ∃ o1 o2 cl req url,
    accepted (trace (world (run obliging sample_dag (sample_world None)))) =
      [ CallSQL o1 true; CallSQL o2 true;
        CallPresign cl req (Some url);
        CallSlack (notify_slack_operator url) true ].
Proof.
  destruct (X5_successful_run_calls obliging (PARAMS_DEFINITION sample_dir)
              sample_dag (sample_world None) chain_schedule
              (run obliging sample_dag (sample_world None))
              (trace (world (run obliging sample_dag (sample_world None)))))
    as (o1 & o2 & b & k & cl & req & url & _ & _ & _ & _ & Hacc).
  - vm_compute. reflexivity.
  - vm_compute. reflexivity.
  - reflexivity.
  - vm_compute. reflexivity.
  - by exists o1, o2, cl, req, url.
Defined.

(** X6. Every call to the webhook in a run, accepted or not, carries the
    message built from a URL that a signing request of the same run
    returned: the notifier never posts a URL left over from an earlier run,
    nor one it made up. *)
Theorem X6_posted_url_was_signed env P d w acts r new op ok :
  account_monthly_balance_generation P = Return d →
  follow env d (new_run w) acts = Some r →
  trace (world r) = trace w ++ new →
  CallSlack op ok ∈ new →
  ∃ cl req url,
    CallPresign cl req (Some url) ∈ new
    ∧ op = notify_slack_operator url
    ∧ message op =
        check_mark +:+ " CSV file for monthly account balance is available at:"
          +:+ nl +:+ url.
Proof.
  intros Hd Hfollow Htrace Hin.
  apply (follow_new_run env d) in Hfollow as Hreach.
  destruct (reachable_url env P d Hd w r Hreach) as (new' & Hext & _ & Hslack).
  rewrite <- (extends_new _ _ _ _ Hext Htrace) in Hslack.
  destruct (Hslack _ _ Hin) as (cl & req & url & Hin' & ->).
  by exists cl, req, url.
Qed.

Lemma X6_witness :
  ∃ cl req url,
    CallPresign cl req (Some url)
      ∈ trace (world (run obliging sample_dag (sample_world None)))
    ∧ notify_slack_operator
        (sample_sign
           (Session_client (session_of (aws_connection None)) "s3"
              (Some "us-east-1"))
           (request_of "terraform-nu-db-pg-48baa6b7"
              "output_files/account_monthly_balance.csv" 604800))
      = notify_slack_operator url.
Proof.
  destruct (X6_posted_url_was_signed obliging (PARAMS_DEFINITION sample_dir)
              sample_dag (sample_world None) chain_schedule
              (run obliging sample_dag (sample_world None))
              (trace (world (run obliging sample_dag (sample_world None))))
              (notify_slack_operator
                 (sample_sign
                    (Session_client (session_of (aws_connection None)) "s3"
                       (Some "us-east-1"))
                    (request_of "terraform-nu-db-pg-48baa6b7"
                       "output_files/account_monthly_balance.csv" 604800)))
              true)
    as (cl & req & url & Hin & Hop & _).
  - vm_compute. reflexivity.
  - vm_compute. reflexivity.
  - reflexivity.
  - vm_compute. do 3 right. left.
  - exists cl, req, url. split; [exact Hin | exact Hop].
Defined.

(** X7. Every call of a run was made through a connection the registry
    held when the run began: a SQL statement through the connection under
    the name the connection identifier of its operator rendered to just
    before the call, a message through slack_webhook_conn, and a signing
    request through a client for us-east-1 over a session with the login,
    the password and the region of the connection that the entry
    aws_conn_id of the dictionary names. *)
Theorem X7_calls_go_through_the_registry env P d w acts r new i c :
  account_monthly_balance_generation P = Return d →
  follow env d (new_run w) acts = Some r →
  trace (world r) = trace w ++ new →
  new !! i = Some c →
  match c with
  | CallSQL op _ =>
      ∃ c', rendered_conn_id env (trace w ++ take i new) op = Return c'
            ∧ is_Some (connections w !! c')
  | CallPresign cl _ _ =>
      ∃ name conn,
        module_params w !! "aws_conn_id" = Some name
        ∧ connections w !! name = Some conn
        ∧ aws_access_key_id (client_session cl) = login conn
        ∧ aws_secret_access_key (client_session cl) = password conn
        ∧ session_region (client_session cl)
          = default "us-east-1" (extra_dejson conn !! "region_name")
        ∧ service_name cl = "s3"
        ∧ client_region cl = "us-east-1"
  | CallSlack op _ => is_Some (connections w !! "slack_webhook_conn")
  end.
Proof.
  intros Hd Hfollow Htrace Hi. apply (follow_new_run env d) in Hfollow as Hreach.
  destruct (reachable_resolved_at env d w r Hreach) as (new' & Hext & Hat).
  rewrite <- (extends_new _ _ _ _ Hext Htrace) in Hat.
  destruct (Hat i c Hi) as (t & Hcall & Hres).
  destruct c as [op ok | cl req res | op ok].
  - destruct (operator (tasks d t)) as [o | |]; try done.
    cbn in Hcall. subst o. destruct Hres as (c' & Hc' & _ & Hsome).
    by exists c'.
  - apply list_elem_of_lookup_2 in Hi.
    pose proof (run_signing_request env P d Hd w r new cl req res
                  Hreach Htrace Hi) as Hby.
    unfold resolved_by in Hby.
    destruct (operator (tasks d T_generate_presigned_url)); try done.
    destruct Hby as (_ & name & conn & Hn & Hconn & ->). by exists name, conn.
  - by destruct (operator (tasks d t)).
Qed.

Lemma X7_witness :
  ∃ c',
    rendered_conn_id obliging
      (trace (sample_world None)
       ++ take 1 (trace (world (run obliging sample_dag (sample_world None)))))
      {| sql_task_id := "load_to_s3";
         sql := "load_to_s3.sql";
         conn_id := "snowflake_conn_id";
         params := PARAMS_DEFINITION sample_dir |} = Return c'
    ∧ is_Some (connections (sample_world None) !! c').
Proof.
  apply (X7_calls_go_through_the_registry obliging
           (PARAMS_DEFINITION sample_dir) sample_dag
           (sample_world None) chain_schedule
           (run obliging sample_dag (sample_world None))
           (trace (world (run obliging sample_dag (sample_world None))))
           1
           (CallSQL {| sql_task_id := "load_to_s3";
                       sql := "load_to_s3.sql";
                       conn_id := "snowflake_conn_id";
                       params := PARAMS_DEFINITION sample_dir |} true)).
  - vm_compute. reflexivity.
  - vm_compute. reflexivity.
  - reflexivity.
  - vm_compute. reflexivity.
Defined.

(** X8. A run can only succeed when, as it began, the registry held the
    warehouse connection under the name the entry snowflake_conn_id renders
    to, the connection slack_webhook_conn, and the connection named by the
    entry aws_conn_id of the dictionary, which must be there.  When the
    entry snowflake_conn_id holds no markup and does not name a template
    file, that is the connection under the entry itself. *)
Theorem X8_success_needs_the_connections env P d w acts r c :
  account_monthly_balance_generation P = Return d →
  follow env d (new_run w) acts = Some r →
  P !! "snowflake_conn_id" = Some c →
  dagrun_state d r = RunSuccess →
  (∃ tr c', render_field env sql_template_ext tr P c = Return c'
            ∧ is_Some (connections w !! c'))
  ∧ is_Some (connections w !! "slack_webhook_conn")
  ∧ (∃ name, module_params w !! "aws_conn_id" = Some name
             ∧ is_Some (connections w !! name))
  ∧ (renders_plain env → plain c = true →
     existsb (endswith c) sql_template_ext = false →
     is_Some (connections w !! c)).
Proof.
  intros Hd Hfollow Hc Hstate.
  apply (follow_new_run env d) in Hfollow as Hreach.
  assert (Hs : ti r T_notify_slack = Success).
  { revert Hstate. unfold dagrun_state. rewrite (leaves_eq P d Hd).
    destruct (forallb _ all_tasks); [|done]. cbn [forallb].
    destruct (bool_decide (ti r T_notify_slack = Success)) eqn:Hb; [|done].
    intros _. by apply bool_decide_eq_true in Hb. }
  destruct (reachable_accepted env P d Hd w r Hreach) as (new & Hext & _ & _).
  destruct Hext as (Hp & Hconn & Htrace).
  destruct (accepted_first_three env P d Hd w r new [T_notify_slack] Hreach Htrace)
    as (o1 & o2 & b & k & cl & req & url & rest & H1 & H2 & H3 & Hacc
        & R1 & _ & R3 & Hrest).
  { exact (succeeded_tasks_all env P d Hd w r Hreach Hs). }
  apply Forall2_cons_inv_l in Hrest as (c4 & l4 & R4 & Hnil & ->).
  destruct (dag_shape P d Hd)
    as (sp & c' & b0 & p0 & f0 & _ & Hc' & _ & _ & _ & _ & _ & _ & _
        & H1' & _ & _ & H4).
  assert (c' = c) as -> by congruence.
  rewrite H1 in H1'. injection H1' as ->.
  unfold resolved_by in R4. rewrite H4 in R4.
  destruct c4 as [| |o4 ok4]; try done. destruct R4 as (_ & Hslack).
  destruct R1 as (_ & tr & cn & Hrender & Hsome).
  unfold rendered_conn_id in Hrender. cbn [params conn_id] in Hrender.
  destruct R3 as (_ & name & conn & Hn & Hcn & _).
  split; [by exists tr, cn|]. split; [done|].
  split; [exists name; split; [done | by exists conn]|].
  intros Hplain Hpl Hext. unfold render_field in Hrender.
  rewrite Hext, Hplain in Hrender by done. by injection Hrender as <-.
Qed.

Lemma X8_witness :
  is_Some (connections (sample_world None) !! "snowflake_conn_id")
  ∧ is_Some (connections (sample_world None) !! "slack_webhook_conn")
  ∧ ∃ name, module_params (sample_world None) !! "aws_conn_id" = Some name
            ∧ is_Some (connections (sample_world None) !! name).
Proof.
  destruct (X8_success_needs_the_connections obliging (PARAMS_DEFINITION sample_dir)
              sample_dag (sample_world None) chain_schedule
              (run obliging sample_dag (sample_world None)) "snowflake_conn_id")
    as (_ & Hslack & Haws & Hwh).
  - vm_compute. reflexivity.
  - vm_compute. reflexivity.
  - vm_compute. reflexivity.
  - vm_compute. reflexivity.
  - split; [|by split]. apply Hwh.
    + exact obliging_renders_plain.
    + vm_compute. reflexivity.
    + vm_compute. reflexivity.
Defined.

(** X9. When the notifier fails, the work before it stands: the create
    statement, the load statement and one signing request were accepted, in
    this order, nothing else was, no message was delivered, and the run is
    not successful. *)
Theorem X9_failed_notifier_keeps_the_work env P d w acts r new :
  account_monthly_balance_generation P = Return d →
  follow env d (new_run w) acts = Some r →
  trace (world r) = trace w ++ new →
  ti r T_notify_slack = Failed →
  (∃ o1 o2 b k cl url,
     operator (tasks d T_create_table_snowflake) = SQLTask o1
     ∧ operator (tasks d T_load_to_s3) = SQLTask o2
     ∧ accepted new =
         [ CallSQL o1 true; CallSQL o2 true;
           CallPresign cl (request_of b k 604800) (Some url) ])
  ∧ posted new = []
  ∧ dagrun_state d r = RunFailed.
Proof.
  intros Hd Hfollow Htrace Hf.
  apply (follow_new_run env d) in Hfollow as Hreach.
  destruct (accepted_first_three env P d Hd w r new [] Hreach Htrace)
    as (o1 & o2 & b & k & cl & req & url & rest & H1 & H2 & H3 & Hacc
        & _ & _ & R3 & Hrest).
  { exact (succeeded_tasks_but_notifier env P d Hd w r Hreach Hf). }
  apply Forall2_nil_inv_l in Hrest as ->.
  destruct R3 as ((tr & b' & k' & _ & _ & ->) & _).
  split_and!.
  - by exists o1, o2, b', k', cl, url.
  - destruct (posted new) as [|m ms] eqn:Hp; [done|].
    assert (Hm : CallSlack m true ∈ accepted new).
    { apply accepted_elem. split; [|done]. apply posted_elem. rewrite Hp. by left. }
    rewrite Hacc in Hm.
    repeat (apply elem_of_cons in Hm as [[=]|Hm]). by apply elem_of_nil in Hm.
  - unfold dagrun_state. rewrite (leaves_eq P d Hd).
    assert (Hall : ∀ t, finished (ti r t) = true).
    { intros t. destruct (decide (t = T_notify_slack)) as [->|Hne];
        [by rewrite Hf|].
      rewrite (chain_success env P d Hd w r t T_notify_slack Hreach);
        [done | | by rewrite Hf].
      unfold before. destruct t; cbn; try lia. done. }
    cbn [forallb all_tasks]. rewrite !Hall. cbn [andb forallb].
    by rewrite Hf.
Qed.

Lemma X9_witness :
  posted (trace (world (run webhook_down sample_dag (sample_world None)))) = []
  ∧ dagrun_state sample_dag (run webhook_down sample_dag (sample_world None))
    = RunFailed.
Proof.
  destruct (X9_failed_notifier_keeps_the_work webhook_down
              (PARAMS_DEFINITION sample_dir) sample_dag (sample_world None)
              chain_schedule
              (run webhook_down sample_dag (sample_world None))
              (trace (world (run webhook_down sample_dag (sample_world None)))))
    as (_ & Hposted & Hstate).
  - vm_compute. reflexivity.
  - vm_compute. reflexivity.
  - reflexivity.
  - vm_compute. reflexivity.
  - split; [exact Hposted | exact Hstate].
Defined.

(** X10. The calls of a run reach the services in the order of the chain:
    a call of one task is never followed by a call of a task before it, so
    that no load statement is sent before the last create statement, no
    signing request before the last load statement, and no message before
    the last signing request. *)
Theorem X10_calls_in_chain_order env P d w acts r new i j c1 c2 t1 t2 :
  account_monthly_balance_generation P = Return d →
  follow env d (new_run w) acts = Some r →
  trace (world r) = trace w ++ new →
  (i < j)%nat →
  new !! i = Some c1 → new !! j = Some c2 →
  call_of (operator (tasks d t1)) c1 →
  call_of (operator (tasks d t2)) c2 →
  (position t1 ≤ position t2)%nat.
Proof.
  intros Hd Hfollow Htrace Hij Hi Hj H1 H2.
  apply (follow_new_run env d) in Hfollow as Hreach.
  destruct (reachable_call_order env P d Hd w r Hreach) as (new' & Hext & Hord).
  rewrite (extends_new _ _ _ _ Hext Htrace) in Hi, Hj.
  by apply (Hord i j c1 c2 t1 t2).
Qed.

Lemma X10_witness : (position T_create_table_snowflake ≤ position T_load_to_s3)%nat.
Proof.
  apply (X10_calls_in_chain_order obliging (PARAMS_DEFINITION sample_dir)
           sample_dag (sample_world None) chain_schedule
           (run obliging sample_dag (sample_world None))
           (trace (world (run obliging sample_dag (sample_world None))))
           0 1
           (CallSQL {| sql_task_id := "create_table_snowflake";
                       sql := "create_table_snowflake.sql";
                       conn_id := "snowflake_conn_id";
                       params := PARAMS_DEFINITION sample_dir |} true)
           (CallSQL {| sql_task_id := "load_to_s3";
                       sql := "load_to_s3.sql";
                       conn_id := "snowflake_conn_id";
                       params := PARAMS_DEFINITION sample_dir |} true)).
  - vm_compute. reflexivity.
  - vm_compute. reflexivity.
  - reflexivity.
  - lia.
  - vm_compute. reflexivity.
  - vm_compute. reflexivity.
  - vm_compute. reflexivity.
  - vm_compute. reflexivity.
Defined.
